(** * joycontrol: the command line front end and the HID server

    A shallow embedding of [run_controller_cli.py] and
    [joycontrol/server.py].  Python coroutines are embedded as computations
    in a state-and-exception monad over an explicit world; an exception
    leaves the world as it was when it was raised, as in Python.  What the
    event loop delivers (timers, reports of the console, connections) is an
    explicit input of the model. *)

From Stdlib Require Import Strings.Byte.
From stdpp Require Import gmap strings pretty list fin_maps.

Open Scope string_scope.
Open Scope list_scope.
Open Scope nat_scope.

Definition bytes := list Byte.byte.

(** ** Exceptions and outcomes *)

Inductive exn :=
| ValueError (msg : string)
| FileNotFoundError (path : string)
| IsADirectoryError (path : string)
| NotADirectoryError (path : string)
| PermissionError (path : string)
| AssertionError
| OSError
| UnsupportedControl (name : string)
| NotConnectedError
| CancelledError.

Inductive outcome (A : Type) :=
| Returned (a : A)
| Raised (e : exn).
Arguments Returned {A} a.
Arguments Raised {A} e.

(** A coroutine over a world [W]: the world after the call, and how the call
    ended. *)
Definition M (W A : Type) : Type := W → W * outcome A.

Definition ret {W A} (a : A) : M W A := λ w, (w, Returned a).

Definition bind {W A B} (c : M W A) (k : A → M W B) : M W B :=
  λ w, match c w with
       | (w', Returned a) => k a w'
       | (w', Raised e) => (w', Raised e)
       end.

Definition raise {W A} (e : exn) : M W A := λ w, (w, Raised e).
Definition gets {W A} (f : W → A) : M W A := λ w, (w, Returned (f w)).
Definition modify {W} (f : W → W) : M W unit := λ w, (f w, Returned tt).

#[global] Instance M_ret W : MRet (M W) := λ A, ret.
#[global] Instance M_bind W : MBind (M W) := λ A B k c, bind c k.

(** [for _ in range(n): body] *)
Fixpoint repeat_m {W} (n : nat) (body : M W unit) : M W unit :=
  match n with
  | O => ret tt
  | S n' => body ;; repeat_m n' body
  end.

(** [for i in range(n): body i], counting up from [i]. *)
Fixpoint for_range {W} (i n : nat) (body : nat → M W unit) : M W unit :=
  match n with
  | O => ret tt
  | S n' => body i ;; for_range (S i) n' body
  end.

(** ** joycontrol.controller: the controller variant *)

Inductive Controller := JOYCON_L | JOYCON_R | PRO_CONTROLLER.

#[global] Instance Controller_eq_dec : EqDecision Controller.
Proof. solve_decision. Defined.

(** [str(controller)] of a Python enumeration member *)
Definition Controller_str (c : Controller) : string :=
  match c with
  | JOYCON_L => "Controller.JOYCON_L"
  | JOYCON_R => "Controller.JOYCON_R"
  | PRO_CONTROLLER => "Controller.PRO_CONTROLLER"
  end.

(** Modelled from the spec: [Controller.from_arg] is not under src/.  The
    variant is "one of three fixed identifiers"; the usage text of the
    front end names them "JOYCON_R", "JOYCON_L" and "PRO_CONTROLLER". *)
Definition from_arg (arg : string) : outcome Controller :=
  if decide (arg = "JOYCON_R") then Returned JOYCON_R
  else if decide (arg = "JOYCON_L") then Returned JOYCON_L
  else if decide (arg = "PRO_CONTROLLER") then Returned PRO_CONTROLLER
  else Raised (ValueError ("Unknown controller " +:+ arg)).

(** ** joycontrol.controller_state: the controller state *)

Record StickState := mkStickState {
  h_stick : Z;
  v_stick : Z;
  h_center : Z; h_min : Z; h_max : Z;
  v_center : Z; v_min : Z; v_max : Z
}.

Record ControllerState := mkControllerState {
  get_controller : Controller;
  button_state : gmap string bool;
  l_stick_state : option StickState;
  r_stick_state : option StickState;
  imu_samples : option bytes;
  nfc_content : option bytes
}.

(** ** joycontrol.report: input reports

    An input report is either the empty [InputReport()], or one built from a
    snapshot of the controller state, or one that carries the reply to a
    subcommand. *)
Inductive InputReport :=
| EmptyInputReport
| StateInputReport (snapshot : ControllerState)
| ReplyInputReport (reply : bytes).

(** ** joycontrol.memory: the emulated SPI flash *)

Record FlashMemory := mkFlashMemory { image : bytes }.

(** ** The world of the front end *)

Record World := mkWorld {
  controller_state : ControllerState;
  spi_flash : FlashMemory;
  (** input reports handed to the transport, oldest first *)
  written : list InputReport;
  (** the transport was closed or the console is gone *)
  closed : bool;
  (** lines printed *)
  stdout : list string
}.

Definition set_controller_state (f : ControllerState → ControllerState) (w : World) : World :=
  mkWorld (f (controller_state w)) (spi_flash w) (written w) (closed w) (stdout w).

Definition print (line : string) : M World unit :=
  modify (λ w, mkWorld (controller_state w) (spi_flash w) (written w) (closed w)
                       (stdout w ++ [line])).

(** [await asyncio.sleep(ms / 1000)]: time is not part of the world. *)
Definition sleep (ms : N) : M World unit := ret tt.
Arguments sleep ms%_N.

(** What [float] makes of a string it accepts, as a time to sleep: one that
    ends, in milliseconds (a negative one ends at once), or one that does
    not (as [inf]). *)
Inductive Delay :=
| Finite (ms : N)
| Endless.

(** [await asyncio.sleep(delay)]: a sleep without end does not return; the
    task leaves it only when it is cancelled, which raises [CancelledError]
    in it. *)
Definition sleep_for (delay : Delay) : M World unit :=
  match delay with
  | Finite ms => sleep ms
  | Endless => raise CancelledError
  end.

(** ** What the front end uses and src/ does not hold

    The tables of the joycontrol package, the replies of its protocol, and
    Python's [float] and [repr] are parameters of the development. *)
Class Externals := {
  (** [ButtonState.get_available_buttons()] of each variant *)
  get_available_buttons : Controller → list string;
  (** the sticks a variant has, calibrated from the flash image *)
  new_l_stick : Controller → FlashMemory → option StickState;
  new_r_stick : Controller → FlashMemory → option StickState;
  (** the position [ControllerCLI._set_stick(stick, direction, None)] moves
      a stick to *)
  stick_towards : string → StickState → StickState;
  (** the image of [FlashMemory()], the built-in calibration data *)
  default_image : bytes;
  (** [float(s)] as a time to sleep, [None] where it raises [ValueError] *)
  float_ms : string → option Delay;
  (** [repr(s)] of a string *)
  repr : string → string;
  (** the reply the protocol of a variant and a flash image writes when it
      gets an output report, if the report carries a subcommand *)
  protocol_reply : Controller → FlashMemory → bytes → option bytes
}.

(** Why [open] fails on a path that cannot be read. *)
Inductive OpenFailure :=
| NoSuchFile
| IsADirectory
| NotADirectory
| PermissionDenied
| OtherFailure.

(** The files the process can read, and for the paths it cannot read the
    reason.  [open('')] fails on every system, with [FileNotFoundError]. *)
Record FileSystem := mkFileSystem {
  read_file : string → option bytes;
  open_failure : string → OpenFailure;
  read_file_empty_path : read_file "" = None;
  open_failure_empty_path : open_failure "" = NoSuchFile
}.

(** The exception [open(path, 'rb')] raises on a path that cannot be
    read. *)
Definition open_error (fs : FileSystem) (path : string) : exn :=
  match open_failure fs path with
  | NoSuchFile => FileNotFoundError path
  | IsADirectory => IsADirectoryError path
  | NotADirectory => NotADirectoryError path
  | PermissionDenied => PermissionError path
  | OtherFailure => OSError
  end.

(** [with open(path, 'rb') as f: f.read()] *)
Definition open_rb {W} (fs : FileSystem) (path : string) : M W bytes :=
  match read_file fs path with
  | Some content => ret content
  | None => raise (open_error fs path)
  end.

Definition dq : string := String (Ascii.ascii_of_nat 34) EmptyString.

Section Frontend.
Context `{Ext : Externals}.

(** Modelled from the spec: [FlashMemory] is not under src/.  "Seeded once
    at construction from a binary dump or from built-in default
    calibration/factory data"; the dump is "loaded byte-for-byte". *)
Definition FlashMemory_new (spi_flash_memory_data : option bytes) : FlashMemory :=
  match spi_flash_memory_data with
  | Some data => mkFlashMemory data
  | None => mkFlashMemory default_image
  end.

Definition storage_size (fm : FlashMemory) : nat := length (image fm).

(** Modelled from the spec: [read(address, length) -> bytes | OutOfBounds],
    which "succeeds iff addr + len <= storage_size". *)
Definition FlashMemory_read (fm : FlashMemory) (address len : nat) : option bytes :=
  if decide (address + len ≤ storage_size fm)
  then Some (take len (drop address (image fm)))
  else None.

(** Modelled from the spec: the state a connection starts with is not under
    src/.  No button is pressed, the variant's sticks are calibrated from
    the flash image, there is no IMU sample and no NFC payload. *)
Definition ControllerState_new (controller : Controller) (fm : FlashMemory) : ControllerState :=
  mkControllerState controller ∅ (new_l_stick controller fm) (new_r_stick controller fm)
                    None None.

(** Modelled from the spec: [ButtonState.set_button] is not under src/.
    A name "invalid for the configured variant always raises
    [UnsupportedControl], never mutates state". *)
Definition set_button (button : string) (pushed : bool) : M World unit :=
  λ w,
    let st := controller_state w in
    if decide (button ∈ get_available_buttons (get_controller st))
    then (set_controller_state
            (λ st, mkControllerState (get_controller st) (<[button:=pushed]> (button_state st))
                     (l_stick_state st) (r_stick_state st) (imu_samples st) (nfc_content st)) w,
          Returned tt)
    else (w, Raised (UnsupportedControl button)).

Inductive Stick := LeftStick | RightStick.

Definition stick_state (stick : Stick) (st : ControllerState) : option StickState :=
  match stick with
  | LeftStick => l_stick_state st
  | RightStick => r_stick_state st
  end.

Definition put_stick (stick : Stick) (s : StickState) (st : ControllerState) : ControllerState :=
  match stick with
  | LeftStick =>
      mkControllerState (get_controller st) (button_state st) (Some s) (r_stick_state st)
                        (imu_samples st) (nfc_content st)
  | RightStick =>
      mkControllerState (get_controller st) (button_state st) (l_stick_state st) (Some s)
                        (imu_samples st) (nfc_content st)
  end.

(** Modelled from the spec: [ControllerCLI._set_stick] is not under src/.
    The stick object is the one the controller state holds, so moving it
    moves the state's stick; a stick "not present on the configured variant
    is a usage error surfaced immediately ([UnsupportedControl])". *)
Definition _set_stick (stick : Stick) (direction : string) : M World unit :=
  λ w,
    match stick_state stick (controller_state w) with
    | Some s => (set_controller_state (put_stick stick (stick_towards direction s)) w,
                 Returned tt)
    | None => (w, Raised (UnsupportedControl match stick with
                                             | LeftStick => "l_stick"
                                             | RightStick => "r_stick"
                                             end))
    end.

(** Modelled from the spec: [ControllerState.set_nfc] is not under src/.
    "NFC payload: optional byte buffer ...; set/cleared by external
    control". *)
Definition ControllerState_set_nfc (content : option bytes) : M World unit :=
  modify (set_controller_state
            (λ st, mkControllerState (get_controller st) (button_state st) (l_stick_state st)
                     (r_stick_state st) (imu_samples st) content)).

(** Modelled from the spec: [ControllerState.send] is not under src/.  The
    send primitive "guarantees the current snapshot of this state is
    incorporated into at least one subsequently transmitted input report,
    and that the call does not return until that report has been handed to
    the transport"; once the connection is closed the waiters "must be
    released with an error". *)
Definition send : M World unit :=
  λ w,
    if closed w then (w, Raised NotConnectedError)
    else (mkWorld (controller_state w) (spi_flash w)
                  (written w ++ [StateInputReport (controller_state w)])
                  (closed w) (stdout w),
          Returned tt).

(** [ControllerState.connect] is not under src/; its callers say that it
    "waits until controller is fully connected".  It changes nothing. *)
Definition connect : M World unit := ret tt.

(** Modelled from the spec: [button_push] is not under src/.  Scripts
    "treat 'push a button' as a synchronous, reliably-delivered action":
    press and commit, hold for [sec], release and commit. *)
Definition button_push (button : string) (sec_ms : N) : M World unit :=
  set_button button true ;;
  send ;;
  sleep sec_ms ;;
  set_button button false ;;
  send.
Arguments button_push button sec_ms%_N.

(** ** run_controller_cli.py *)

Definition btnsList : list string :=
  ["x"; "y"; "b"; "a"; "plus"; "minus"; "home"; "capture"; "zl"; "zr"; "l"; "r"; "up"; "down";
   "left"; "right"].
Definition lStickList : list string := ["lStickUp"; "lStickDown"; "lStickL"; "lStickR"].
Definition rStickList : list string := ["rStickUp"; "rStickDown"; "rStickL"; "rStickR"].

(** [directStateSet(btnTrans, controller_state)] *)
Definition directStateSet (btnTrans : string) : M World unit :=
  if decide (btnTrans ∈ btnsList) then
    set_button btnTrans true ;; send
  else if decide (btnTrans ∈ lStickList) then
    if decide (btnTrans = "lStickDown") then _set_stick LeftStick "down" ;; send
    else if decide (btnTrans = "lStickUp") then _set_stick LeftStick "up" ;; send
    else if decide (btnTrans = "lStickL") then _set_stick LeftStick "left" ;; send
    else if decide (btnTrans = "lStickR") then _set_stick LeftStick "right" ;; send
    else ret tt
  else if decide (btnTrans ∈ rStickList) then
    if decide (btnTrans = "rStickDown") then _set_stick RightStick "down" ;; send
    else if decide (btnTrans = "rStickUp") then _set_stick RightStick "up" ;; send
    else if decide (btnTrans = "rStickL") then _set_stick RightStick "left" ;; send
    else if decide (btnTrans = "rStickR") then _set_stick RightStick "right" ;; send
    else ret tt
  else ret tt.

(** The guard the scripts start with. *)
Definition pro_controller_only : M World unit :=
  c ← gets (λ w, get_controller (controller_state w));
  if decide (c ≠ PRO_CONTROLLER)
  then raise (ValueError "This script only works with the Pro Controller!")
  else ret tt.

(** [date_skipper(controller_state)] *)
Definition date_skipper : M World unit :=
  let number_days := 815 in
  pro_controller_only ;;
  connect ;;
  button_push "right" 100 ;;
  button_push "b" 100 ;;
  button_push "right" 100 ;;
  button_push "down" 100 ;;
  button_push "right" 100 ;;
  button_push "a" 100 ;;
  button_push "down" 2500 ;;
  sleep 100 ;;
  button_push "right" 100 ;;
  repeat_m 4 (button_push "down" 100 ;; sleep 80) ;;
  button_push "a" 100 ;;
  sleep 200 ;;
  repeat_m 2 (button_push "down" 100 ;; sleep 80) ;;
  button_push "a" 100 ;;
  sleep 80 ;;
  button_push "right" 1000 ;;
  for_range 0 number_days (λ i,
    print (pretty i +:+ "/" +:+ pretty number_days) ;;
    repeat_m 4 (button_push "left" 100 ;; sleep 40) ;;
    button_push "up" 100 ;;
    repeat_m 4 (button_push "right" 100 ;; sleep 40) ;;
    button_push "a" 100 ;;
    sleep 80 ;;
    (if decide ((i + 1) `mod` 30 = 0) then
       button_push "up" 100 ;; sleep 40 ;;
       button_push "up" 100 ;; sleep 40 ;;
       button_push "a" 100 ;; sleep 100 ;;
       button_push "a" 100 ;; sleep 100 ;;
       button_push "down" 100 ;; sleep 40 ;;
       button_push "down" 100 ;; sleep 40
     else ret tt) ;;
    button_push "a" 100 ;;
    sleep 80).

(** One round of the [while True] of [run_auto_host]. *)
Definition run_auto_host_round : M World unit :=
  let frames_away := 3 in
  repeat_m frames_away
    (print "start inviting" ;;
     button_push "a" 100 ;;
     button_push "a" 100 ;;
     sleep 1000 ;;
     button_push "a" 100 ;;
     sleep 500 ;;
     button_push "a" 100 ;;
     sleep 500 ;;
     button_push "a" 100 ;;
     sleep 2000 ;;
     print "date skip" ;;
     button_push "home" 100 ;;
     sleep 400 ;;
     print "navigate to settings menu" ;;
     button_push "right" 100 ;;
     button_push "b" 100 ;;
     button_push "right" 100 ;;
     button_push "down" 100 ;;
     button_push "right" 100 ;;
     button_push "a" 100 ;;
     print "go all the way down" ;;
     button_push "down" 2500 ;;
     button_push "a" 100 ;;
     repeat_m 4
      (button_push "down" 100 ;;
       sleep 80) ;;
     button_push "a" 100 ;;
     sleep 100 ;;
     repeat_m 3
      (button_push "down" 100 ;;
       sleep 80) ;;
     button_push "a" 100 ;;
     sleep 80 ;;
     print "increment year" ;;
     button_push "right" 100 ;;
     button_push "y" 100 ;;
     button_push "right" 100 ;;
     button_push "y" 100 ;;
     button_push "up" 100 ;;
     button_push "a" 100 ;;
     button_push "y" 100 ;;
     button_push "a" 100 ;;
     button_push "y" 100 ;;
     button_push "a" 100 ;;
     button_push "y" 100 ;;
     button_push "a" 100 ;;
     button_push "y" 100 ;;
     button_push "a" 100 ;;
     print "go back to game" ;;
     sleep 80 ;;
     button_push "home" 100 ;;
     sleep 1000 ;;
     button_push "a" 100 ;;
     sleep 1500 ;;
     print "quit lobby" ;;
     button_push "down" 100 ;;
     sleep 80 ;;
     button_push "a" 100 ;;
     sleep 1200 ;;
     button_push "a" 100 ;;
     sleep 4000) ;;
  print "collect watts" ;;
  button_push "a" 100 ;;
  sleep 1000 ;;
  button_push "b" 100 ;;
  sleep 1000 ;;
  button_push "b" 100 ;;
  sleep 1600 ;;
  button_push "b" 100 ;;
  sleep 1000 ;;
  print "connect to internet" ;;
  button_push "y" 100 ;;
  sleep 1000 ;;
  button_push "plus" 100 ;;
  sleep 7000 ;;
  button_push "b" 100 ;;
  sleep 500 ;;
  button_push "b" 100 ;;
  sleep 1000 ;;
  print "start raid" ;;
  button_push "a" 100 ;;
  sleep 7000 ;;
  print "enter code" ;;
  button_push "plus" 100 ;;
  sleep 1000 ;;
  button_push "a" 100 ;;
  button_push "down" 100 ;;
  button_push "a" 100 ;;
  button_push "right" 100 ;;
  button_push "a" 100 ;;
  button_push "left" 100 ;;
  button_push "a" 100 ;;
  button_push "l" 100 ;;
  button_push "a" 100 ;;
  button_push "l" 100 ;;
  button_push "a" 100 ;;
  button_push "l" 100 ;;
  button_push "a" 100 ;;
  button_push "l" 100 ;;
  button_push "a" 100 ;;
  button_push "plus" 100 ;;
  sleep 1000 ;;
  button_push "a" 100 ;;
  sleep 200 ;;
  button_push "a" 100 ;;
  sleep 200 ;;
  button_push "a" 100 ;;
  sleep 200 ;;
  button_push "a" 100 ;;
  sleep 200 ;;
  button_push "a" 100 ;;
  print "wait for lobby to fill" ;;
  sleep 6000 ;;
  button_push "home" 100 ;;
  sleep 1000 ;;
  button_push "up" 100 ;;
  sleep 500 ;;
  button_push "a" 100 ;;
  sleep 400 ;;
  button_push "a" 100 ;;
  sleep 100 ;;
  button_push "a" 100 ;;
  sleep 100 ;;
  repeat_m 22
    (button_push "a" 100 ;;
     sleep 1000) ;;
  button_push "home" 100 ;;
  sleep 1500 ;;
  button_push "home" 100 ;;
  sleep 35000 ;;
  print "start raid" ;;
  button_push "up" 100 ;;
  sleep 100 ;;
  button_push "a" 100 ;;
  sleep 400 ;;
  button_push "a" 100 ;;
  sleep 400 ;;
  button_push "a" 100 ;;
  sleep 400 ;;
  button_push "a" 100 ;;
  sleep 400 ;;
  button_push "a" 100 ;;
  sleep 400 ;;
  button_push "a" 100 ;;
  sleep 400 ;;
  button_push "a" 100 ;;
  repeat_m 35
    (button_push "a" 100 ;;
     sleep 1000) ;;
  print "close game" ;;
  button_push "home" 100 ;;
  sleep 1000 ;;
  button_push "x" 100 ;;
  sleep 100 ;;
  button_push "a" 100 ;;
  sleep 4000 ;;
  print "reset time" ;;
  button_push "right" 100 ;;
  button_push "b" 100 ;;
  button_push "right" 100 ;;
  button_push "down" 100 ;;
  button_push "right" 100 ;;
  button_push "a" 100 ;;
  button_push "down" 2500 ;;
  sleep 100 ;;
  button_push "right" 100 ;;
  repeat_m 4
    (button_push "down" 100 ;;
     sleep 80) ;;
  button_push "a" 100 ;;
  sleep 200 ;;
  print "turn on & off sync clock" ;;
  button_push "a" 100 ;;
  sleep 80 ;;
  button_push "a" 100 ;;
  sleep 80 ;;
  button_push "home" 100 ;;
  sleep 1500 ;;
  print "start up game again, wait, and mash through until in front of den" ;;
  button_push "a" 100 ;;
  sleep 18000 ;;
  button_push "a" 100 ;;
  sleep 3500 ;;
  button_push "a" 100 ;;
  sleep 8000.

(** [run_auto_host(controller_state)].  Its loop has no exit of its own:
    [rounds] is the number of rounds it runs before the task is stopped. *)
Definition run_auto_host (rounds : nat) : M World unit :=
  pro_controller_only ;;
  connect ;;
  repeat_m rounds run_auto_host_round.

(** [friend_remover(controller_state)] *)
Definition friend_remover : M World unit :=
  pro_controller_only ;;
  connect ;;
  let num_friends := 50 in
  for_range 0 num_friends (λ i,
    print (pretty i +:+ "/" +:+ pretty num_friends) ;;
    button_push "a" 100 ;; sleep 1500 ;;
    button_push "down" 100 ;;
    button_push "a" 100 ;; sleep 1500 ;;
    button_push "a" 100 ;; sleep 1500 ;;
    button_push "a" 100 ;; sleep 9000 ;;
    button_push "a" 100 ;; sleep 2000).

(** [set_nfc(controller_state, file_path)] *)
Definition set_nfc (fs : FileSystem) (file_path : string) : M World unit :=
  content ← open_rb fs file_path;
  ControllerState_set_nfc (Some content).

(** The prompt of [mash_button]. *)
Definition mash_prompt (button interval : string) : string :=
  "Pressing the " +:+ button +:+ " button every " +:+ interval
  +:+ " seconds... Press <enter> to stop.".

(** [mash_button(controller_state, button, interval)].  The task of
    [ainput], once handed to the loop, writes the prompt to the standard
    output.  The prompt is answered after [extra_rounds] further rounds of
    the loop: its first test of [user_input.done()] comes before the prompt
    task has run.  [user_input] is what awaiting the prompt gives. *)
Definition mash_button (button interval : string) (extra_rounds : nat)
    (user_input : outcome unit) : M World unit :=
  connect ;;
  avail ← gets (λ w, get_available_buttons (get_controller (controller_state w)));
  (if decide (button ∉ avail)
   then (c ← gets (λ w, get_controller (controller_state w));
         raise (ValueError ("Button " +:+ button +:+ " does not exist on " +:+ Controller_str c)))
   else ret tt) ;;
  print (mash_prompt button interval) ;;
  repeat_m (S extra_rounds)
    (button_push button 100 ;;
     match float_ms interval with
     | Some delay => sleep_for delay
     | None => raise (ValueError ("could not convert string to float: " +:+ repr interval))
     end) ;;
  match user_input with
  | Returned _ => ret tt
  | Raised e => raise e
  end.

(** [call_mash_button], the [mash] command, on its argument list *)
Definition call_mash_button (args : list string) (extra_rounds : nat)
    (user_input : outcome unit) : M World unit :=
  match args with
  | [button; interval] => mash_button button interval extra_rounds user_input
  | _ => raise (ValueError (dq +:+ "mash_button" +:+ dq
                            +:+ " command requires a button and interval as arguments!"))
  end.

(** [nfc], the [nfc] command, on its argument list *)
Definition nfc (fs : FileSystem) (args : list string) : M World unit :=
  c ← gets (λ w, get_controller (controller_state w));
  if decide (c = JOYCON_L) then
    raise (ValueError "NFC content cannot be set for JOYCON_L")
  else
    match args with
    | [] => raise (ValueError (dq +:+ "nfc" +:+ dq
                               +:+ " command requires file path to an nfc dump as argument!"))
    | arg0 :: _ =>
        if decide (arg0 = "remove") then
          ControllerState_set_nfc None ;;
          print "Removed nfc content."
        else set_nfc fs arg0
    end.

(** What runs on the controller state once the connection stands: the
    commands of the shell, the scripts, and the steps of a playback. *)
Inductive Operation :=
| OpMash (args : list string) (extra_rounds : nat) (user_input : outcome unit)
| OpNfc (args : list string)
| OpSkip
| OpHost (rounds : nat)
| OpRemove
| OpDirectStateSet (btnTrans : string)
| OpSetButton (button : string) (pushed : bool)
| OpSend.

Definition run_operation (fs : FileSystem) (op : Operation) : M World unit :=
  match op with
  | OpMash args extra_rounds user_input => call_mash_button args extra_rounds user_input
  | OpNfc args => nfc fs args
  | OpSkip => date_skipper
  | OpHost rounds => run_auto_host rounds
  | OpRemove => friend_remover
  | OpDirectStateSet btnTrans => directStateSet btnTrans
  | OpSetButton button pushed => set_button button pushed
  | OpSend => send
  end.

(** The shell runs one operation after the other; an exception ends the
    operation that raised it, not the shell.  After an operation that does
    not return (it sleeps without end) the shell runs nothing more. *)
Fixpoint run_operations (fs : FileSystem) (ops : list Operation) (w : World) : World :=
  match ops with
  | [] => w
  | op :: ops' =>
      match run_operation fs op w with
      | (w', Raised CancelledError) => w'
      | (w', _) => run_operations fs ops' w'
      end
  end.

(** The first part of [_main(args)]: the flash image the protocol is built
    on.  [if args.spi_flash:] takes an absent and an empty option alike. *)
Definition _main_spi_flash {W} (fs : FileSystem) (args_spi_flash : option string) : M W FlashMemory :=
  match args_spi_flash with
  | Some path =>
      if decide (path ≠ "") then
        data ← open_rb fs path;
        ret (FlashMemory_new (Some data))
      else ret (FlashMemory_new None)
  | None => ret (FlashMemory_new None)
  end.

End Frontend.

(** ** joycontrol/server.py *)

Module Server.

Definition BtAddr := string.
Definition BDADDR_ANY : BtAddr := "00:00:00:00:00:00".

(** An L2CAP socket.  [socket.socket(...)] creates it in blocking mode. *)
Record Socket := mkSocket {
  blocking : bool;
  reuseaddr : bool;
  bound : option (BtAddr * nat);
  listening : bool;
  peer : option (BtAddr * nat)
}.

(** Calls on the Bluetooth adapter ([joycontrol.device.HidDevice]) and the
    system. *)
Inductive HidCall :=
| Powered (on : bool)
| Pairable (on : bool)
| Discoverable (on : bool)
| RegisterSdpRecord
| RestartBluetooth.

(** [L2CAP_Transport(loop, protocol, itr_sock, ctl_sock, read_buffer_size,
    capture_file)] *)
Record Transport := mkTransport {
  itr_sock : nat;
  ctl_sock : nat;
  read_buffer_size : nat;
  capture_file : option string
}.

(** What crossed the interrupt channel. *)
Inductive WireEvent :=
| Sent (report : InputReport)
| Received (output_report : bytes).

Record World := mkWorld {
  sockets : gmap nat Socket;
  next_fd : nat;
  hid_calls : list HidCall;
  (** the transports constructed so far *)
  transports : list Transport;
  (** the traffic of the connection, oldest first *)
  wire : list WireEvent;
  (** the [setblocking] calls server.py has made, oldest first *)
  setblocking_calls : list (nat * bool)
}.

Definition empty_world : World := mkWorld ∅ 0 [] [] [] [].

(** What the adapter and the console do during the set-up. *)
Record Env := mkEnv {
  (** [hid.address] *)
  hid_address : BtAddr;
  (** the control, the interrupt port is taken (the bluez input plugin):
      [bind] raises *)
  ctl_port_taken : bool;
  itr_port_taken : bool;
  (** it is still taken after the Bluetooth service was restarted *)
  ctl_port_taken_after_restart : bool;
  itr_port_taken_after_restart : bool;
  (** the peers [sock_accept] returns on the two listening sockets *)
  ctl_address : BtAddr * nat;
  itr_address : BtAddr * nat;
  (** reconnection: [connect] to the control, the interrupt port raises *)
  ctl_connect_refused : bool;
  itr_connect_refused : bool
}.

(** One of the two ports is taken. *)
Definition ports_taken (env : Env) : bool :=
  ctl_port_taken env || itr_port_taken env.

(** One of the two ports is taken after the Bluetooth service was
    restarted. *)
Definition ports_taken_after_restart (env : Env) : bool :=
  ctl_port_taken_after_restart env || itr_port_taken_after_restart env.

Definition with_sockets (f : gmap nat Socket → gmap nat Socket) (w : World) : World :=
  mkWorld (f (sockets w)) (next_fd w) (hid_calls w) (transports w) (wire w)
          (setblocking_calls w).

(** [socket.socket(AF_BLUETOOTH, SOCK_SEQPACKET, BTPROTO_L2CAP)] *)
Definition socket : M World nat :=
  λ w, (mkWorld (<[next_fd w := mkSocket true false None false None]> (sockets w))
                (S (next_fd w)) (hid_calls w) (transports w) (wire w)
                (setblocking_calls w),
        Returned (next_fd w)).

(** The change of mode of a socket. *)
Definition set_mode (fd : nat) (flag : bool) : World → World :=
  with_sockets (alter (λ s, mkSocket flag (reuseaddr s) (bound s) (listening s) (peer s)) fd).

(** [sock.setblocking(flag)], as server.py calls it. *)
Definition setblocking (fd : nat) (flag : bool) : M World unit :=
  modify (λ w, let w' := set_mode fd flag w in
               mkWorld (sockets w') (next_fd w') (hid_calls w') (transports w') (wire w')
                       (setblocking_calls w' ++ [(fd, flag)])).

Definition setsockopt_reuseaddr (fd : nat) : M World unit :=
  modify (with_sockets (alter (λ s, mkSocket (blocking s) true (bound s) (listening s) (peer s)) fd)).

(** [sock.bind(address)]: it raises [OSError] when the port is taken, and
    on a socket that is bound already (the L2CAP layer binds a socket in its
    open state only). *)
Definition bind_sock (taken : bool) (fd : nat) (address : BtAddr * nat) : M World unit :=
  λ w, match sockets w !! fd with
       | Some s =>
           match bound s with
           | Some _ => (w, Raised OSError)
           | None =>
               if taken then (w, Raised OSError)
               else modify (with_sockets
                              (alter (λ s, mkSocket (blocking s) (reuseaddr s) (Some address)
                                                    (listening s) (peer s)) fd)) w
           end
       | None => (w, Raised OSError)
       end.

Definition listen (fd : nat) : M World unit :=
  modify (with_sockets (alter (λ s, mkSocket (blocking s) (reuseaddr s) (bound s) true (peer s)) fd)).

Definition connect_sock (refused : bool) (fd : nat) (address : BtAddr * nat) : M World unit :=
  if refused then raise OSError
  else modify (with_sockets
                 (alter (λ s, mkSocket (blocking s) (reuseaddr s) (bound s) (listening s) (Some address)) fd)).

(** [await loop.sock_accept(sock)]: the connection [sock.accept()] gives is
    a new socket, which the event loop switches to non-blocking mode
    before it hands it out.  That switch is made by asyncio, it is no call
    of server.py. *)
Definition sock_accept (fd : nat) (address : BtAddr * nat) : M World (nat * (BtAddr * nat)) :=
  conn ← (λ w, (mkWorld (<[next_fd w := mkSocket true false None false (Some address)]> (sockets w))
                        (S (next_fd w)) (hid_calls w) (transports w) (wire w)
                        (setblocking_calls w),
                Returned (next_fd w)));
  modify (set_mode conn false) ;;
  ret (conn, address).

Definition hid_call (c : HidCall) : M World unit :=
  modify (λ w, mkWorld (sockets w) (next_fd w) (hid_calls w ++ [c]) (transports w) (wire w)
                       (setblocking_calls w)).

(** [try: body except OSError: handler] *)
Definition try_except_OSError {A} (body handler : M World A) : M World A :=
  λ w, match body w with
       | (w', Raised OSError) => handler w'
       | r => r
       end.

(** [assert cond] *)
Definition assert (cond : bool) : M World unit :=
  if cond then ret tt else raise AssertionError.

(** The first part of [create_hid_server]: the two connections, as
    [(client_itr, client_ctl)]. *)
Definition establish (env : Env) (ctl_psm itr_psm : nat) (reconnect_bt_addr : option BtAddr)
    : M World (nat * nat) :=
  match reconnect_bt_addr with
  | None =>
      ctl_sock ← socket;
      itr_sock ← socket;
      setblocking ctl_sock false ;;
      setblocking itr_sock false ;;
      setsockopt_reuseaddr ctl_sock ;;
      setsockopt_reuseaddr itr_sock ;;
      try_except_OSError
        (bind_sock (ctl_port_taken env) ctl_sock (hid_address env, ctl_psm) ;;
         bind_sock (itr_port_taken env) itr_sock (hid_address env, itr_psm))
        (hid_call RestartBluetooth ;;
         bind_sock (ctl_port_taken_after_restart env) ctl_sock (BDADDR_ANY, ctl_psm) ;;
         bind_sock (itr_port_taken_after_restart env) itr_sock (BDADDR_ANY, itr_psm)) ;;
      listen ctl_sock ;;
      listen itr_sock ;;
      hid_call (Powered true) ;;
      hid_call (Pairable true) ;;
      hid_call RegisterSdpRecord ;;
      hid_call (Discoverable true) ;;
      '(client_ctl, ctl_address) ← sock_accept ctl_sock (ctl_address env);
      '(client_itr, itr_address) ← sock_accept itr_sock (itr_address env);
      assert (bool_decide (ctl_address.1 = itr_address.1)) ;;
      hid_call (Discoverable false) ;;
      hid_call (Pairable false) ;;
      ret (client_itr, client_ctl)
  | Some addr =>
      client_ctl ← socket;
      client_itr ← socket;
      connect_sock (ctl_connect_refused env) client_ctl (addr, ctl_psm) ;;
      connect_sock (itr_connect_refused env) client_itr (addr, itr_psm) ;;
      setblocking client_ctl false ;;
      setblocking client_itr false ;;
      ret (client_itr, client_ctl)
  end.

(** What the event loop runs next once the transport stands: the task of
    [_send_empty_input_reports] (for the first time, or when its sleep of
    one second is over), or the reader with an output report of the
    console. *)
Inductive LoopEvent :=
| SenderRuns
| OutputReport (data : bytes).

(** The tasks of the loop: [sender_i] is the [i] of the loop of
    [_send_empty_input_reports]; [returned] tells that [create_hid_server]
    is past [await protocol.wait_for_output_report()]. *)
Record Loop := mkLoop {
  world : World;
  sender_i : nat;
  returned : bool
}.

(** Modelled from the spec: the protocol class is not under src/.  "Each
    handled subcommand yields an acknowledging input report with a
    subcommand-reply payload": [report_received protocol data] is the
    payload of the reply the protocol writes when it gets the output report
    [data], if it writes one. *)
Class ControllerProtocol (P : Type) := {
  report_received : P → bytes → option bytes
}.

Definition write (report : InputReport) (w : World) : World :=
  mkWorld (sockets w) (next_fd w) (hid_calls w) (transports w) (wire w ++ [Sent report])
          (setblocking_calls w).

Definition data_received (data : bytes) (w : World) : World :=
  mkWorld (sockets w) (next_fd w) (hid_calls w) (transports w) (wire w ++ [Received data])
          (setblocking_calls w).

(** What the protocol does with an output report: it writes its reply, if
    it has one. *)
Definition reply `{ControllerProtocol P} (protocol : P) (data : bytes) (w : World) : World :=
  match report_received protocol data with
  | Some r => write (ReplyInputReport r) w
  | None => w
  end.

(** One round of the event loop.  [_send_empty_input_reports] writes
    [InputReport()] and sleeps, ten times; nothing cancels it (the
    [future.cancel()] of the source stands in a string literal).  The
    reader hands an output report to the protocol, which was given the
    transport by [connection_made] and replies over it.
    [wait_for_output_report] is not under src/: it returns once the
    protocol has received an output report. *)
Definition step `{ControllerProtocol P} (protocol : P) (l : Loop) (ev : LoopEvent) : Loop :=
  match ev with
  | SenderRuns =>
      if decide (sender_i l < 10)
      then mkLoop (write EmptyInputReport (world l)) (S (sender_i l)) (returned l)
      else l
  | OutputReport data =>
      mkLoop (reply protocol data (data_received data (world l))) (sender_i l) true
  end.

Definition run_loop `{ControllerProtocol P} (protocol : P) (events : list LoopEvent)
    (l : Loop) : Loop :=
  foldl (step protocol) l events.

Inductive completion (A : Type) :=
| Done (a : A)
| Failed (e : exn)
| Suspended.
Arguments Done {A} a.
Arguments Failed {A} e.
Arguments Suspended {A}.

(** [create_hid_server(protocol_factory, ctl_psm, itr_psm, device_id,
    reconnect_bt_addr, capture_file)] under the events the loop delivers
    from the construction of the transport on.  [connection_made] gives the
    protocol the transport, which is the [protocol.transport] returned;
    [ensure_future] hands the sender to the loop.  The loop goes on after
    the function has returned. *)
Definition create_hid_server `{ControllerProtocol P} (protocol_factory : unit → P) (env : Env)
    (ctl_psm itr_psm : nat) (reconnect_bt_addr : option BtAddr) (capture_file : option string)
    (events : list LoopEvent) (w : World) : Loop * completion (Transport * P) :=
  let protocol := protocol_factory tt in
  match establish env ctl_psm itr_psm reconnect_bt_addr w with
  | (w', Raised e) => (mkLoop w' 0 false, Failed e)
  | (w', Returned (client_itr, client_ctl)) =>
      let transport := mkTransport client_itr client_ctl 50 capture_file in
      let w'' := mkWorld (sockets w') (next_fd w') (hid_calls w') (transports w' ++ [transport])
                         (wire w') (setblocking_calls w') in
      let l := run_loop protocol events (mkLoop w'' 0 false) in
      (l, if returned l then Done (transport, protocol) else Suspended)
  end.

End Server.

(** ** [_main(args)] *)

Record Args := mkArgs {
  args_controller : string;
  args_log : option string;
  args_spi_flash : option string;
  args_reconnect_bt_addr : option string;
  args_nfc : option string
}.

(** The protocol [controller_protocol_factory(controller, spi_flash)] makes:
    the class is not under src/; it is taken as the variant and the flash
    image it was built from. *)
Record Protocol := mkProtocol {
  protocol_controller : Controller;
  protocol_spi_flash : FlashMemory
}.

Section Main.
Context `{Ext : Externals}.

(** The replies of the protocol are those of its variant and flash
    image. *)
#[global] Instance Protocol_ControllerProtocol : Server.ControllerProtocol Protocol :=
  {| Server.report_received protocol data :=
       protocol_reply (protocol_controller protocol) (protocol_spi_flash protocol) data |}.

Definition controller_protocol_factory (controller : Controller) (spi_flash : FlashMemory)
    : unit → Protocol :=
  λ _, mkProtocol controller spi_flash.

(** [protocol.get_controller_state()] *)
Definition get_controller_state (protocol : Protocol) : ControllerState :=
  ControllerState_new (protocol_controller protocol) (protocol_spi_flash protocol).

(** [_main(args)], with the events of the loop during and after
    [create_hid_server] and the operations the user runs in the shell.  It
    gives the world the shell is left in. *)
Definition _main (fs : FileSystem) (env : Server.Env) (args : Args)
    (events : list Server.LoopEvent) (ops : list Operation) : Server.completion World :=
  match _main_spi_flash fs (args_spi_flash args) tt with
  | (_, Raised e) => Server.Failed e
  | (_, Returned spi_flash) =>
      match from_arg (args_controller args) with
      | Raised e => Server.Failed e
      | Returned controller =>
          let factory := controller_protocol_factory controller spi_flash in
          match Server.create_hid_server factory env 17 19 (args_reconnect_bt_addr args)
                  (args_log args) events Server.empty_world with
          | (_, Server.Failed e) => Server.Failed e
          | (_, Server.Suspended) => Server.Suspended
          | (_, Server.Done (transport, protocol)) =>
              let controller_state := get_controller_state protocol in
              let w := mkWorld controller_state (protocol_spi_flash protocol) [] false [] in
              match (match args_nfc args with
                     | Some path => nfc fs [path]
                     | None => ret tt
                     end) w with
              | (_, Raised e) => Server.Failed e
              | (w', Returned _) => Server.Done (run_operations fs ops w')
              end
          end
      end
  end.

End Main.

(** ** run_controller_cli.py: the keyboard *)

(** [keyboard.key_to_scan_codes(key)] of the keyboard library: the scan
    codes of a key name, a tuple that is never empty, or [None] where the
    library raises [ValueError] (the keyboard has no such key). *)
Class Keyboard := {
  key_to_scan_codes : string → option (nat * list nat)
}.

(** The dictionary and the list of [keyToConBtn]. *)
Definition keyBinding : gmap string string :=
  list_to_map
    [("q", "left"); ("w", "lStickUp"); ("e", "up"); ("r", "zl"); ("t", "l"); ("y", "r");
     ("u", "zr"); ("i", "rStickUp"); ("a", "lStickL"); ("s", "lStickDown"); ("d", "lStickR");
     ("f", "right"); ("g", "capture"); ("h", "home"); ("j", "rStickL"); ("k", "rStickDown");
     ("l", "rStickR"); ("c", "down"); ("up", "x"); ("down", "b"); ("left", "y");
     ("right", "a"); ("-", "minus"); ("+", "plus")].

Definition testKeys : list string :=
  ["q"; "w"; "e"; "r"; "t"; "y"; "u"; "i"; "a"; "s"; "d"; "f"; "g"; "h"; "j"; "k"; "l"; "c";
   "up"; "down"; "left"; "right"; "+"; "-"].

Section KeyToConBtn.
Context `{Kbd : Keyboard}.

(** The loop of [keyToConBtn]: every test key is looked up, and a test key
    whose first scan code is [key] replaces the one found before. *)
Fixpoint find_namedKey (key : nat) (keys : list string) (namedKey : option string)
    : outcome (option string) :=
  match keys with
  | [] => Returned namedKey
  | testKey :: keys' =>
      match key_to_scan_codes testKey with
      | None => Raised (ValueError ("Key " +:+ testKey +:+ " is not mapped to any known key."))
      | Some (code, _) =>
          find_namedKey key keys' (if decide (code = key) then Some testKey else namedKey)
      end
  end.

(** [keyToConBtn(key)]; a function that ends without [return] gives
    [None]. *)
Definition keyToConBtn (key : nat) : outcome (option string) :=
  match find_namedKey key testKeys None with
  | Raised e => Raised e
  | Returned None => Returned None
  | Returned (Some namedKey) =>
      match keyBinding !! namedKey with
      | Some conBtnPressed => Returned (Some conBtnPressed)
      | None => Returned None
      end
  end.

End KeyToConBtn.

Section BindKeyboard.
Context `{Ext : Externals}.

(** [bindKeyboard(controller_state)]: for each key the callback it
    registers with [keyboard.on_press_key] and the one it registers with
    [keyboard.on_release_key].  The sticks the callbacks move are the ones
    the controller state holds. *)
Definition bindKeyboard : gmap string (M World unit * M World unit) :=
  list_to_map
    [("q", (set_button "left" true, set_button "left" false));
     ("w", (_set_stick LeftStick "up", _set_stick LeftStick "center"));
     ("e", (set_button "up" true, set_button "up" false));
     ("r", (set_button "zl" true, set_button "zl" false));
     ("t", (set_button "l" true, set_button "l" false));
     ("y", (set_button "r" true, set_button "r" false));
     ("u", (set_button "zr" true, set_button "zr" false));
     ("i", (_set_stick RightStick "up", _set_stick RightStick "center"));
     ("a", (_set_stick LeftStick "left", _set_stick LeftStick "center"));
     ("s", (_set_stick LeftStick "down", _set_stick LeftStick "center"));
     ("d", (_set_stick LeftStick "right", _set_stick LeftStick "center"));
     ("f", (set_button "right" true, set_button "right" false));
     ("g", (set_button "capture" true, set_button "capture" false));
     ("h", (set_button "home" true, set_button "home" false));
     ("j", (_set_stick RightStick "left", _set_stick RightStick "center"));
     ("k", (_set_stick RightStick "down", _set_stick RightStick "center"));
     ("l", (_set_stick RightStick "right", _set_stick RightStick "center"));
     ("c", (set_button "down" true, set_button "down" false));
     ("+", (set_button "plus" true, set_button "plus" false));
     ("-", (set_button "minus" true, set_button "minus" false));
     ("up", (set_button "x" true, set_button "x" false));
     ("down", (set_button "b" true, set_button "b" false));
     ("left", (set_button "y" true, set_button "y" false));
     ("right", (set_button "a" true, set_button "a" false))].

(** What a key going down, and a key going up, runs. *)
Definition on_press_key (key : string) : M World unit :=
  match bindKeyboard !! key with
  | Some (press, _) => press
  | None => ret tt
  end.

Definition on_release_key (key : string) : M World unit :=
  match bindKeyboard !! key with
  | Some (_, release) => release
  | None => ret tt
  end.

End BindKeyboard.

(** * What the properties are stated with *)

(** [keeps R c]: whatever [c] does to the world, and however it ends, the
    world it leaves is related by [R] to the one it found. *)
Definition keeps {W A} (R : relation W) (c : M W A) : Prop := ∀ w, R w (c w).1.

(** The variant and the flash image are the same. *)
Definition same_identity (w w' : World) : Prop :=
  get_controller (controller_state w') = get_controller (controller_state w)
  ∧ spi_flash w' = spi_flash w.

(** The controller state is the same but for its NFC payload. *)
Definition same_but_nfc (w w' : World) : Prop :=
  get_controller (controller_state w') = get_controller (controller_state w)
  ∧ button_state (controller_state w') = button_state (controller_state w)
  ∧ l_stick_state (controller_state w') = l_stick_state (controller_state w)
  ∧ r_stick_state (controller_state w') = r_stick_state (controller_state w)
  ∧ imu_samples (controller_state w') = imu_samples (controller_state w).

(** The stick and the direction a recorded stick event stands for. *)
Definition stick_binding (btnTrans : string) : option (Stick * string) :=
  if decide (btnTrans = "lStickDown") then Some (LeftStick, "down")
  else if decide (btnTrans = "lStickUp") then Some (LeftStick, "up")
  else if decide (btnTrans = "lStickL") then Some (LeftStick, "left")
  else if decide (btnTrans = "lStickR") then Some (LeftStick, "right")
  else if decide (btnTrans = "rStickDown") then Some (RightStick, "down")
  else if decide (btnTrans = "rStickUp") then Some (RightStick, "up")
  else if decide (btnTrans = "rStickL") then Some (RightStick, "left")
  else if decide (btnTrans = "rStickR") then Some (RightStick, "right")
  else None.

Definition nonblocking (w : Server.World) (fd : nat) : bool :=
  match Server.sockets w !! fd with
  | Some s => negb (Server.blocking s)
  | None => false
  end.

Definition peer_of (w : Server.World) (fd : nat) : option (Server.BtAddr * nat) :=
  s ← Server.sockets w !! fd; Server.peer s.

Definition is_listening (w : Server.World) (fd : nat) : bool :=
  match Server.sockets w !! fd with
  | Some s => Server.listening s
  | None => false
  end.

(** Between [w] and [w'], server.py has called [setblocking(False)] on
    [fd]. *)
Definition set_nonblocking_by_server (w w' : Server.World) (fd : nat) : bool :=
  bool_decide ((fd, false) ∈ drop (length (Server.setblocking_calls w))
                                  (Server.setblocking_calls w')).

(** The two listening sockets get bound: at once, or after the restart when
    it was the control port that was taken.  When the interrupt port alone
    was taken, the control socket is bound by the time of the restart, and
    [bind] refuses it. *)
Definition ports_bound (env : Server.Env) : bool :=
  negb (Server.ports_taken env)
  || (Server.ctl_port_taken env && negb (Server.ports_taken_after_restart env)).

Definition is_empty_report (ev : Server.WireEvent) : bool :=
  match ev with
  | Server.Sent EmptyInputReport => true
  | _ => false
  end.

Definition is_output_report (ev : Server.WireEvent) : bool :=
  match ev with
  | Server.Received _ => true
  | _ => false
  end.

(** The empty input reports sent, and the output reports received. *)
Definition empty_reports_sent (wire : list Server.WireEvent) : nat :=
  length (filter (λ ev, is_empty_report ev = true) wire).
Definition output_reports_received (wire : list Server.WireEvent) : nat :=
  length (filter (λ ev, is_output_report ev = true) wire).

(** How often the loop ran the sender, and how many output reports it
    delivered. *)
Definition is_sender_run (ev : Server.LoopEvent) : bool :=
  match ev with
  | Server.SenderRuns => true
  | Server.OutputReport _ => false
  end.
Definition sender_runs (events : list Server.LoopEvent) : nat :=
  length (filter (λ ev, is_sender_run ev = true) events).
Definition output_reports (events : list Server.LoopEvent) : nat :=
  length (filter (λ ev, is_sender_run ev = false) events).

(** No empty input report is sent once an output report was received. *)
Fixpoint quiet_after_contact (contact : bool) (wire : list Server.WireEvent) : bool :=
  match wire with
  | [] => true
  | Server.Sent EmptyInputReport :: rest => negb contact && quiet_after_contact contact rest
  | Server.Sent _ :: rest => quiet_after_contact contact rest
  | Server.Received _ :: rest => quiet_after_contact true rest
  end.

Definition no_empty_report_after_first_contact (wire : list Server.WireEvent) : bool :=
  quiet_after_contact false wire.

(** ** Sample data to run the model on *)

(** An adapter whose ports are free and a console that connects twice. *)
Definition sample_env : Server.Env :=
  Server.mkEnv "DC:A6:32:01:02:03" false false false false
               ("98:B6:E9:0A:0B:0C", 17) ("98:B6:E9:0A:0B:0C", 19) false false.

Definition sample_stick : StickState := mkStickState 2048 2048 2048 512 3584 2048 512 3584.

Definition sample_externals : Externals := {|
  get_available_buttons c :=
    match c with
    | PRO_CONTROLLER => btnsList ++ ["r_stick"; "l_stick"]
    | JOYCON_R => ["y"; "x"; "b"; "a"; "sr"; "sl"; "r"; "zr"; "plus"; "r_stick"; "home"]
    | JOYCON_L => ["sr"; "sl"; "minus"; "l_stick"; "capture"; "down"; "up"; "right"; "left";
                   "l"; "zl"]
    end;
  new_l_stick c _ := match c with JOYCON_R => None | _ => Some sample_stick end;
  new_r_stick c _ := match c with JOYCON_L => None | _ => Some sample_stick end;
  stick_towards direction s :=
    if decide (direction = "up") then
      mkStickState (h_center s) (v_max s) (h_center s) (h_min s) (h_max s)
                   (v_center s) (v_min s) (v_max s)
    else if decide (direction = "down") then
      mkStickState (h_center s) (v_min s) (h_center s) (h_min s) (h_max s)
                   (v_center s) (v_min s) (v_max s)
    else if decide (direction = "left") then
      mkStickState (h_min s) (v_center s) (h_center s) (h_min s) (h_max s)
                   (v_center s) (v_min s) (v_max s)
    else if decide (direction = "right") then
      mkStickState (h_max s) (v_center s) (h_center s) (h_min s) (h_max s)
                   (v_center s) (v_min s) (v_max s)
    else
      mkStickState (h_center s) (v_center s) (h_center s) (h_min s) (h_max s)
                   (v_center s) (v_min s) (v_max s);
  default_image := replicate 8 Byte.x00;
  float_ms s :=
    if decide (s = "0.5") then Some (Finite 500)
    else if decide (s = "inf") then Some Endless
    else None;
  repr s := "'" +:+ s +:+ "'";
  protocol_reply _ _ data :=
    match data with
    | Byte.x01 :: _ => Some [Byte.x21]
    | _ => None
    end
|}.

Definition sample_dump : bytes := [Byte.x04; Byte.xa1; Byte.x5e; Byte.xff].

Definition sample_read_file (path : string) : option bytes :=
  if decide (path = "amiibo.bin") then Some sample_dump
  else if decide (path = "flash.bin") then Some (sample_dump ++ sample_dump)
  else None.

Definition sample_open_failure (path : string) : OpenFailure :=
  if decide (path = "/") then IsADirectory
  else if decide (path = "/etc/shadow") then PermissionDenied
  else NoSuchFile.

Definition sample_fs : FileSystem :=
  mkFileSystem sample_read_file sample_open_failure eq_refl eq_refl.

Definition sample_args : Args :=
  mkArgs "PRO_CONTROLLER" None (Some "flash.bin") None (Some "amiibo.bin").

Definition sample_events : list Server.LoopEvent :=
  [Server.SenderRuns; Server.OutputReport [Byte.x01]; Server.SenderRuns].

Definition sample_ops : list Operation :=
  [OpMash ["a"; "0.5"] 1 (Returned tt); OpDirectStateSet "lStickUp"; OpNfc ["remove"];
   OpSetButton "sr" true].

(** A protocol that acknowledges the output reports with a subcommand. *)
#[global] Instance sample_protocol : Server.ControllerProtocol unit := {|
  Server.report_received _ data :=
    match data with
    | Byte.x01 :: _ => Some [Byte.x21]
    | _ => None
    end
|}.

(** A pairing with [sample_env], and a reconnection to its console. *)
Definition sample_pairing : Server.Loop * Server.completion (Server.Transport * unit) :=
  Server.create_hid_server (λ _, tt) sample_env 17 19 None None sample_events
    Server.empty_world.

Definition sample_reconnection : Server.Loop * Server.completion (Server.Transport * unit) :=
  Server.create_hid_server (λ _, tt) sample_env 17 19 (Some "98:B6:E9:0A:0B:0C") None
    sample_events Server.empty_world.

Definition sample_world (c : Controller) : World :=
  mkWorld (@ControllerState_new sample_externals c (@FlashMemory_new sample_externals None))
          (@FlashMemory_new sample_externals None) [] false [].

(** The world [_main] ends in on the sample data. *)
Definition sample_main_world : World :=
  match @_main sample_externals sample_fs sample_env sample_args sample_events sample_ops with
  | Server.Done w => w
  | _ => sample_world PRO_CONTROLLER
  end.

(** ** What the further properties are stated with *)

(** The first scan code of a key name. *)
Definition first_code `{Kbd : Keyboard} (k : string) : option nat :=
  fst <$> key_to_scan_codes k.

(** A keyboard to run [keyToConBtn] on: the letters have the codes of their
    characters; the arrows, plus and minus have codes of their own. *)
Definition sample_keyboard : Keyboard := {|
  key_to_scan_codes k :=
    if decide (k = "up") then Some (1, [])
    else if decide (k = "down") then Some (2, [])
    else if decide (k = "left") then Some (3, [])
    else if decide (k = "right") then Some (4, [])
    else
      match k with
      | String c EmptyString => Some (Ascii.nat_of_ascii c, [])
      | _ => None
      end
|}.

(** A keyboard without the arrow keys. *)
Definition letters_keyboard : Keyboard := {|
  key_to_scan_codes k :=
    match k with
    | String c EmptyString => Some (Ascii.nat_of_ascii c, [])
    | _ => None
    end
|}.

(** No button is pressed in [w'] that was not pressed in [w]. *)
Definition no_new_press (w w' : World) : Prop :=
  ∀ b, button_state (controller_state w') !! b = Some true →
       button_state (controller_state w) !! b = Some true.

(** What a script leaves alone: the connection, the flash image, and all of
    the controller state but the buttons, of which it leaves none pressed
    that was not. *)
Definition script_frame (w w' : World) : Prop :=
  closed w' = closed w
  ∧ spi_flash w' = spi_flash w
  ∧ get_controller (controller_state w') = get_controller (controller_state w)
  ∧ l_stick_state (controller_state w') = l_stick_state (controller_state w)
  ∧ r_stick_state (controller_state w') = r_stick_state (controller_state w)
  ∧ imu_samples (controller_state w') = imu_samples (controller_state w)
  ∧ nfc_content (controller_state w') = nfc_content (controller_state w)
  ∧ no_new_press w w'.

(** [f i + f (i + 1) + ... + f (i + n - 1)] *)
Fixpoint sum_range (f : nat → nat) (i n : nat) : nat :=
  match n with
  | O => 0
  | S n' => f i + sum_range f (S i) n'
  end.

(** [pushes_through B c pushes lines]: while the connection stands and the
    variant has the buttons [B], [c] returns, having handed two reports per
    push to the transport and printed [lines]. *)
Definition pushes_through `{Ext : Externals} (B : list string) (c : M World unit)
    (pushes : nat) (lines : list string) : Prop :=
  ∀ w, closed w = false →
       (∀ b, b ∈ B → b ∈ get_available_buttons (get_controller (controller_state w))) →
       ∃ w', c w = (w', Returned tt)
             ∧ script_frame w w'
             ∧ length (written w') = length (written w) + 2 * pushes
             ∧ stdout w' = stdout w ++ lines.

(** The buttons the three scripts push. *)
Definition date_skipper_buttons : list string := ["right"; "b"; "down"; "a"; "left"; "up"].
Definition friend_remover_buttons : list string := ["a"; "down"].
Definition run_auto_host_buttons : list string :=
  ["a"; "home"; "right"; "b"; "down"; "y"; "up"; "plus"; "left"; "l"; "x"].

(** What one round of [run_auto_host] prints. *)
Definition inviting_lines : list string :=
  ["start inviting"; "date skip"; "navigate to settings menu"; "go all the way down";
   "increment year"; "go back to game"; "quit lobby"].
Definition run_auto_host_lines : list string :=
  concat (replicate 3 inviting_lines)
  ++ ["collect watts"; "connect to internet"; "start raid"; "enter code";
      "wait for lobby to fill"; "start raid"; "close game"; "reset time";
      "turn on & off sync clock";
      "start up game again, wait, and mash through until in front of den"].

(** A button that is pressed stays pressed; the IMU samples and the NFC
    payload stay. *)
Definition presses_only (w w' : World) : Prop :=
  (∀ b, button_state (controller_state w) !! b = Some true →
        button_state (controller_state w') !! b = Some true)
  ∧ imu_samples (controller_state w') = imu_samples (controller_state w)
  ∧ nfc_content (controller_state w') = nfc_content (controller_state w).

Definition same_sticks (w w' : World) : Prop :=
  l_stick_state (controller_state w') = l_stick_state (controller_state w)
  ∧ r_stick_state (controller_state w') = r_stick_state (controller_state w).

Definition same_buttons (w w' : World) : Prop :=
  button_state (controller_state w') = button_state (controller_state w).

Definition same_written (w w' : World) : Prop := written w' = written w.

(** The address the listening sockets are bound to. *)
Definition listen_address (env : Server.Env) : Server.BtAddr :=
  if Server.ports_taken env then Server.BDADDR_ANY else Server.hid_address env.

(** The calls on the adapter up to the wait for the console. *)
Definition advertising_calls (env : Server.Env) : list Server.HidCall :=
  (if Server.ports_taken env then [Server.RestartBluetooth] else [])
  ++ [Server.Powered true; Server.Pairable true; Server.RegisterSdpRecord;
      Server.Discoverable true].

(** A console that connects from two addresses, and an adapter whose ports
    stay taken. *)
Definition two_peers_env : Server.Env :=
  Server.mkEnv "DC:A6:32:01:02:03" true true false false
               ("98:B6:E9:0A:0B:0C", 17) ("04:03:D6:0D:0E:0F", 19) false false.
Definition ports_taken_env : Server.Env :=
  Server.mkEnv "DC:A6:32:01:02:03" true true true true
               ("98:B6:E9:0A:0B:0C", 17) ("98:B6:E9:0A:0B:0C", 19) true true.

(** A console that refuses the connection to its interrupt port. *)
Definition itr_refused_env : Server.Env :=
  Server.mkEnv "DC:A6:32:01:02:03" false false false false
               ("98:B6:E9:0A:0B:0C", 17) ("98:B6:E9:0A:0B:0C", 19) false true.

(** The world [_main] starts the shell in on the sample data. *)
Definition sample_started_world : World :=
  match @_main sample_externals sample_fs sample_env sample_args sample_events [] with
  | Server.Done w => w
  | _ => sample_world PRO_CONTROLLER
  end.

(** * Properties *)

(** ** Reasoning about coroutines *)

Lemma bind_run {W A B} (c : M W A) (k : A → M W B) (w : W) :
  (c ≫= k) w = match c w with
               | (w', Returned a) => k a w'
               | (w', Raised e) => (w', Raised e)
               end.
Proof. reflexivity. Qed.

Section Keeps.
Context {W : Type} (R : relation W) `{!Reflexive R, !Transitive R}.

Lemma keeps_ret {A} (a : A) : keeps R (mret a : M W A).
Proof. intros w. reflexivity. Qed.

Lemma keeps_raise {A} (e : exn) : keeps R (raise e : M W A).
Proof. intros w. reflexivity. Qed.

Lemma keeps_gets {A} (f : W → A) : keeps R (gets f).
Proof. intros w. reflexivity. Qed.

Lemma keeps_bind {A B} (c : M W A) (k : A → M W B) :
  keeps R c → (∀ a, keeps R (k a)) → keeps R (c ≫= k).
Proof.
  intros Hc Hk w. rewrite bind_run. specialize (Hc w).
  destruct (c w) as [w' [a|e]]; simpl in *; [|done].
  etrans; [exact Hc|apply Hk].
Qed.

Lemma keeps_repeat_m (n : nat) (body : M W unit) :
  keeps R body → keeps R (repeat_m n body).
Proof.
  intros Hb. induction n as [|n IH]; simpl.
  - apply keeps_ret.
  - apply keeps_bind; auto.
Qed.

Lemma keeps_for_range (n i : nat) (body : nat → M W unit) :
  (∀ j, keeps R (body j)) → keeps R (for_range i n body).
Proof.
  intros Hb. revert i. induction n as [|n IH]; intros i; simpl.
  - apply keeps_ret.
  - apply keeps_bind; auto.
Qed.

End Keeps.

(** ** What the operations of the front end leave alone *)

#[global] Instance same_identity_refl : Reflexive same_identity.
Proof. by intros w. Qed.
#[global] Instance same_identity_trans : Transitive same_identity.
Proof. intros w1 w2 w3 [? ?] [? ?]. split; congruence. Qed.
#[global] Instance same_but_nfc_refl : Reflexive same_but_nfc.
Proof. by intros w. Qed.
#[global] Instance same_but_nfc_trans : Transitive same_but_nfc.
Proof. intros w1 w2 w3 (?&?&?&?&?) (?&?&?&?&?). repeat split; congruence. Qed.

Create HintDb keeps.

Ltac keeps_step :=
  lazymatch goal with
  | |- keeps ?R (mret _) => apply (keeps_ret R)
  | |- keeps ?R (ret _) => apply (keeps_ret R)
  | |- keeps ?R (raise _) => apply (keeps_raise R)
  | |- keeps ?R (gets _) => apply (keeps_gets R)
  | |- keeps ?R (_ ≫= _) => apply (keeps_bind R); [|intros ?]
  | |- keeps ?R (repeat_m _ _) => apply (keeps_repeat_m R)
  | |- keeps ?R (for_range _ _ _) => apply (keeps_for_range R); intros ?
  | |- keeps _ (if _ then _ else _) => first [case_decide | case_match]
  | |- keeps _ (match _ with _ => _ end) => case_match
  end.
Ltac solve_keeps := repeat keeps_step; eauto with keeps.

Section FrontendFacts.
Context `{Ext : Externals}.

Lemma set_button_identity button pushed : keeps same_identity (set_button button pushed).
Proof. intros w. unfold set_button. by case_decide. Qed.

Lemma _set_stick_identity stick direction : keeps same_identity (_set_stick stick direction).
Proof. intros w. unfold _set_stick. case_match; [|done]. by destruct stick. Qed.

Lemma set_nfc_content_identity content : keeps same_identity (ControllerState_set_nfc content).
Proof. by intros w. Qed.

Lemma send_identity : keeps same_identity send.
Proof. intros w. unfold send. by case_match. Qed.

Lemma print_identity line : keeps same_identity (print line).
Proof. by intros w. Qed.

Lemma sleep_identity ms : keeps same_identity (sleep ms).
Proof. by intros w. Qed.

Lemma sleep_for_identity delay : keeps same_identity (sleep_for delay).
Proof. by intros w; destruct delay. Qed.

Lemma connect_identity : keeps same_identity connect.
Proof. by intros w. Qed.

Lemma open_rb_identity fs path : keeps same_identity (open_rb fs path).
Proof. unfold open_rb. solve_keeps. Qed.

Hint Resolve set_button_identity _set_stick_identity set_nfc_content_identity send_identity
  print_identity sleep_identity sleep_for_identity connect_identity open_rb_identity : keeps.

Lemma button_push_identity button sec : keeps same_identity (button_push button sec).
Proof. unfold button_push. solve_keeps. Qed.
Hint Resolve button_push_identity : keeps.

Lemma directStateSet_identity btnTrans : keeps same_identity (directStateSet btnTrans).
Proof. unfold directStateSet. solve_keeps. Qed.

Lemma pro_controller_only_identity : keeps same_identity pro_controller_only.
Proof. unfold pro_controller_only. solve_keeps. Qed.
Hint Resolve pro_controller_only_identity : keeps.

Lemma date_skipper_identity : keeps same_identity date_skipper.
Proof. unfold date_skipper. solve_keeps. Qed.

Lemma run_auto_host_identity rounds : keeps same_identity (run_auto_host rounds).
Proof. unfold run_auto_host, run_auto_host_round. solve_keeps. Qed.

Lemma friend_remover_identity : keeps same_identity friend_remover.
Proof. unfold friend_remover. solve_keeps. Qed.

Lemma set_nfc_identity fs file_path : keeps same_identity (set_nfc fs file_path).
Proof. unfold set_nfc. solve_keeps. Qed.

Lemma mash_button_identity button interval n ui :
  keeps same_identity (mash_button button interval n ui).
Proof. unfold mash_button. solve_keeps. Qed.

Lemma call_mash_button_identity args n ui : keeps same_identity (call_mash_button args n ui).
Proof. unfold call_mash_button. solve_keeps. apply mash_button_identity. Qed.

Lemma nfc_identity fs args : keeps same_identity (nfc fs args).
Proof. unfold nfc. solve_keeps. apply set_nfc_identity. Qed.

Lemma run_operation_identity fs op : keeps same_identity (run_operation fs op).
Proof.
  destruct op; simpl;
    auto using call_mash_button_identity, nfc_identity, date_skipper_identity,
      run_auto_host_identity, friend_remover_identity, directStateSet_identity, set_button_identity, send_identity.
Qed.

Lemma run_operations_one fs op w : run_operations fs [op] w = (run_operation fs op w).1.
Proof. simpl. by destruct (run_operation fs op w) as [w' [[]|[]]]. Qed.

Lemma run_operations_cons fs op ops w :
  (run_operation fs op w).2 ≠ Raised CancelledError →
  run_operations fs (op :: ops) w = run_operations fs ops (run_operation fs op w).1.
Proof. simpl. by destruct (run_operation fs op w) as [w' [[]|[]]]. Qed.

Lemma run_operations_identity fs ops w : same_identity w (run_operations fs ops w).
Proof.
  revert w. induction ops as [|op ops IH]; intros w; simpl; [done|].
  pose proof (run_operation_identity fs op w) as Hop.
  destruct (run_operation fs op w) as [w' [[]|e]]; simpl in Hop;
    [by etrans; [exact Hop|apply IH]|].
  destruct e; first [exact Hop | by etrans; [exact Hop|apply IH]].
Qed.

End FrontendFacts.

(** ** The NFC payload *)

Section NfcFacts.

Lemma set_nfc_content_but_nfc content : keeps same_but_nfc (ControllerState_set_nfc content).
Proof. by intros w. Qed.

Lemma print_but_nfc line : keeps same_but_nfc (print line).
Proof. by intros w. Qed.

Lemma open_rb_but_nfc fs path : keeps same_but_nfc (open_rb fs path).
Proof. unfold open_rb. solve_keeps. Qed.

Hint Resolve set_nfc_content_but_nfc print_but_nfc open_rb_but_nfc : keeps.

Lemma set_nfc_but_nfc fs file_path : keeps same_but_nfc (set_nfc fs file_path).
Proof. unfold set_nfc. solve_keeps. Qed.

Lemma nfc_but_nfc fs args : keeps same_but_nfc (nfc fs args).
Proof. unfold nfc. solve_keeps. apply set_nfc_but_nfc. Qed.

Lemma set_nfc_run fs file_path content w :
  read_file fs file_path = Some content →
  set_nfc fs file_path w
  = (set_controller_state
       (λ st, mkControllerState (get_controller st) (button_state st) (l_stick_state st)
                (r_stick_state st) (imu_samples st) (Some content)) w,
     Returned tt).
Proof. intros Hf. unfold set_nfc, open_rb. rewrite Hf. reflexivity. Qed.

(** C5: [set_nfc] makes the NFC payload the whole content of the dump
    file, byte for byte; [nfc remove] makes it [None] (on a variant the
    command accepts); and whatever [set_nfc] and [nfc] do, however they
    end, the other fields of the controller state stay as they were. *)
Theorem nfc_payload_set_and_removed (fs : FileSystem) (w : World) :
  (∀ file_path content,
      read_file fs file_path = Some content →
      ∃ w', set_nfc fs file_path w = (w', Returned tt)
            ∧ nfc_content (controller_state w') = Some content
            ∧ same_but_nfc w w')
  ∧ (∀ file_path rest,
      get_controller (controller_state w) ≠ JOYCON_L → file_path ≠ "remove" →
      nfc fs (file_path :: rest) w = set_nfc fs file_path w)
  ∧ (∀ rest,
      get_controller (controller_state w) ≠ JOYCON_L →
      ∃ w', nfc fs ("remove" :: rest) w = (w', Returned tt)
            ∧ nfc_content (controller_state w') = None
            ∧ same_but_nfc w w')
  ∧ (∀ file_path, same_but_nfc w (set_nfc fs file_path w).1)
  ∧ (∀ args, same_but_nfc w (nfc fs args w).1).
Proof.
  split; [|split; [|split; [|split]]].
  - intros file_path content Hf. eexists. rewrite (set_nfc_run _ _ _ _ Hf). done.
  - intros file_path rest Hc Hr. unfold nfc. rewrite bind_run. simpl.
    by repeat case_decide.
  - intros rest Hc. unfold nfc. rewrite bind_run. simpl.
    repeat case_decide; try done.
    eexists. split; [reflexivity|]. done.
  - intros file_path. apply set_nfc_but_nfc.
  - intros args. apply nfc_but_nfc.
Qed.

(** C7: on Joy-Con Left, and without an argument, the [nfc] command raises
    [ValueError] and leaves the world, the NFC payload with it, as it was;
    on the other variants, with an argument, it clears the payload for
    [remove] and sets it from the file otherwise. *)
Theorem nfc_refuses_joycon_l_and_no_argument (fs : FileSystem) (args : list string) (w : World) :
  (get_controller (controller_state w) = JOYCON_L ∨ args = [] →
   ∃ msg, nfc fs args w = (w, Raised (ValueError msg)))
  ∧ (get_controller (controller_state w) ≠ JOYCON_L →
     ∀ arg0 rest, args = arg0 :: rest →
     nfc fs args w
     = (if decide (arg0 = "remove")
        then ControllerState_set_nfc None ;; print "Removed nfc content."
        else set_nfc fs arg0) w).
Proof.
  split.
  - intros Hg. unfold nfc. rewrite bind_run. simpl. case_decide; [by eexists|].
    destruct Hg as [?| ->]; [done|]. by eexists.
  - intros Hc arg0 rest ->. unfold nfc. rewrite bind_run. simpl.
    by case_decide.
Qed.

End NfcFacts.

(** The Pro Controller takes the four bytes of the sample dump. *)
Lemma nfc_payload_set_and_removed_witness :
  nfc_content (controller_state
                 (set_nfc sample_fs "amiibo.bin" (sample_world PRO_CONTROLLER)).1)
  = Some sample_dump.
Proof.
  destruct (proj1 (nfc_payload_set_and_removed sample_fs (sample_world PRO_CONTROLLER))
              "amiibo.bin" sample_dump eq_refl)
    as (w' & Hrun & Hnfc & _).
  rewrite Hrun. exact Hnfc.
Defined.

(** Joy-Con Left refuses the sample dump. *)
Lemma nfc_refuses_joycon_l_and_no_argument_witness :
  ∃ msg, nfc sample_fs ["amiibo.bin"] (sample_world JOYCON_L)
         = (sample_world JOYCON_L, Raised (ValueError msg)).
Proof.
  apply (proj1 (nfc_refuses_joycon_l_and_no_argument sample_fs ["amiibo.bin"]
                  (sample_world JOYCON_L))).
  left. reflexivity.
Defined.

(** ** Buttons the variant does not have *)

Section ButtonFacts.
Context `{Ext : Externals}.

(** C4: for a button that is not among the available buttons of the
    variant, [mash_button] (and the [mash] command) raises [ValueError],
    and [set_button], [button_push] and [directStateSet] raise
    [UnsupportedControl]; each leaves the world as it found it: no button
    is pressed and no report is written. *)
Theorem unavailable_button_raises (button : string) (w : World) :
  button ∉ get_available_buttons (get_controller (controller_state w)) →
  (∀ interval extra_rounds user_input,
      ∃ msg, mash_button button interval extra_rounds user_input w = (w, Raised (ValueError msg))
             ∧ call_mash_button [button; interval] extra_rounds user_input w
               = (w, Raised (ValueError msg)))
  ∧ (∀ pushed, set_button button pushed w = (w, Raised (UnsupportedControl button)))
  ∧ (∀ sec, button_push button sec w = (w, Raised (UnsupportedControl button)))
  ∧ (button ∈ btnsList → directStateSet button w = (w, Raised (UnsupportedControl button))).
Proof.
  intros Hb.
  assert (Hset : ∀ pushed, set_button button pushed w = (w, Raised (UnsupportedControl button))).
  { intros pushed. unfold set_button. by rewrite decide_False. }
  split; [|split; [|split]].
  - intros interval extra_rounds user_input. eexists.
    unfold call_mash_button, mash_button. rewrite !bind_run. simpl.
    rewrite !bind_run. simpl. case_decide; [|done].
    rewrite !bind_run. simpl. done.
  - exact Hset.
  - intros sec. unfold button_push. rewrite bind_run. by rewrite Hset.
  - intros Hl. unfold directStateSet. case_decide; [|done].
    rewrite bind_run. by rewrite Hset.
Qed.

End ButtonFacts.

(** Joy-Con Right has no capture button. *)
Lemma unavailable_button_raises_witness :
  @set_button sample_externals "capture" true (sample_world JOYCON_R)
  = (sample_world JOYCON_R, Raised (UnsupportedControl "capture")).
Proof.
  refine (proj1 (proj2 (@unavailable_button_raises sample_externals "capture"
                          (sample_world JOYCON_R) _)) true).
  apply (bool_decide_unpack _). vm_compute. exact I.
Defined.

(** ** The send primitive *)

(** Membership in a list that is written out: one case per element. *)
Ltac in_literal H :=
  repeat (apply elem_of_cons in H as [H|H]); [..|by apply elem_of_nil in H].

Section SendFacts.
Context `{Ext : Externals}.

Lemma send_run w :
  send w = if closed w then (w, Raised NotConnectedError)
           else (mkWorld (controller_state w) (spi_flash w)
                         (written w ++ [StateInputReport (controller_state w)])
                         (closed w) (stdout w), Returned tt).
Proof. reflexivity. Qed.

Lemma send_returned w w' r :
  send w = (w', Returned r) →
  written w' = written w ++ [StateInputReport (controller_state w)]
  ∧ controller_state w' = controller_state w.
Proof. rewrite send_run. destruct (closed w); intros [= <- _]; done. Qed.

Lemma set_button_returned button pushed w w' r :
  set_button button pushed w = (w', Returned r) →
  written w' = written w
  ∧ button_state (controller_state w') !! button = Some pushed.
Proof.
  unfold set_button. case_decide; intros [= <- _]; simpl.
  split; [done|]. apply lookup_insert_eq.
Qed.

Lemma _set_stick_returned stick direction w w' r :
  _set_stick stick direction w = (w', Returned r) →
  written w' = written w
  ∧ ∃ s, stick_state stick (controller_state w) = Some s
         ∧ stick_state stick (controller_state w') = Some (stick_towards direction s).
Proof.
  unfold _set_stick. destruct (stick_state stick (controller_state w)) as [s|] eqn:Hs;
    intros [= <- _]; simpl.
  split; [done|]. exists s. split; [done|]. by destruct stick.
Qed.

Lemma set_button_then_send button w w' r :
  (set_button button true ;; send) w = (w', Returned r) →
  written w' = written w ++ [StateInputReport (controller_state w')]
  ∧ button_state (controller_state w') !! button = Some true.
Proof.
  rewrite bind_run. destruct (set_button button true w) as [w1 [[]|e]] eqn:H1; [|done].
  intros H2. apply set_button_returned in H1 as [Hw Hb].
  apply send_returned in H2 as [Hw' Hs]. rewrite Hw', Hw, Hs. done.
Qed.

Lemma _set_stick_then_send stick direction w w' r :
  (_set_stick stick direction ;; send) w = (w', Returned r) →
  written w' = written w ++ [StateInputReport (controller_state w')]
  ∧ ∃ s, stick_state stick (controller_state w) = Some s
         ∧ stick_state stick (controller_state w') = Some (stick_towards direction s).
Proof.
  rewrite bind_run. destruct (_set_stick stick direction w) as [w1 [[]|e]] eqn:H1; [|done].
  intros H2. apply _set_stick_returned in H1 as [Hw Hb].
  apply send_returned in H2 as [Hw' Hs]. rewrite Hw', Hw, Hs. done.
Qed.

(** C2: [send] returns only with an input report built from the state as
    it is at the call appended to what was handed to the transport, and it
    does return while the connection stands.  So when [directStateSet]
    returns from a recorded button or stick event, the last report handed
    to the transport was built from the state it leaves, in which the
    button is pressed, or the stick moved. *)
Theorem send_hands_over_current_state :
  (∀ w w' r, send w = (w', Returned r) →
      written w' = written w ++ [StateInputReport (controller_state w)]
      ∧ controller_state w' = controller_state w)
  ∧ (∀ w, closed w = false → ∃ w', send w = (w', Returned tt))
  ∧ (∀ btnTrans w w' r,
      directStateSet btnTrans w = (w', Returned r) →
      btnTrans ∈ btnsList ++ lStickList ++ rStickList →
      written w' = written w ++ [StateInputReport (controller_state w')]
      ∧ (btnTrans ∈ btnsList → button_state (controller_state w') !! btnTrans = Some true)
      ∧ (btnTrans ∉ btnsList →
         ∃ stick direction s,
           stick_binding btnTrans = Some (stick, direction)
           ∧ stick_state stick (controller_state w) = Some s
           ∧ stick_state stick (controller_state w') = Some (stick_towards direction s)))
  ∧ (∀ btnTrans w,
      closed w = false → btnTrans ∈ btnsList →
      btnTrans ∈ get_available_buttons (get_controller (controller_state w)) →
      ∃ w', directStateSet btnTrans w = (w', Returned tt)).
Proof.
  split; [|split; [|split]].
  - apply send_returned.
  - intros w Hc. rewrite send_run, Hc. by eexists.
  - intros btnTrans w w' r Hrun Hin. unfold directStateSet in Hrun.
    case_decide as Hb.
    { apply set_button_then_send in Hrun as [? ?]. done. }
    assert (Hstick : ∀ stick direction,
               stick_binding btnTrans = Some (stick, direction) →
               (_set_stick stick direction ;; send) w = (w', Returned r) →
               written w' = written w ++ [StateInputReport (controller_state w')]
               ∧ (btnTrans ∈ btnsList →
                  button_state (controller_state w') !! btnTrans = Some true)
               ∧ (btnTrans ∉ btnsList →
                  ∃ stick direction s,
                    stick_binding btnTrans = Some (stick, direction)
                    ∧ stick_state stick (controller_state w) = Some s
                    ∧ stick_state stick (controller_state w')
                      = Some (stick_towards direction s))).
    { intros stick direction Hbind H. apply _set_stick_then_send in H as [Hw (s & Hs & Hs')].
      split; [done|]. split; [done|]. intros _. by exists stick, direction, s. }
    apply elem_of_app in Hin as [Hin|Hin]; [done|].
    apply elem_of_app in Hin as [Hin|Hin].
    + rewrite decide_True in Hrun by done.
      repeat case_decide; subst; try (by eapply Hstick).
      exfalso. by in_literal Hin.
    + case_decide as Hl.
      { exfalso. in_literal Hin; subst; by in_literal Hl. }
      rewrite decide_True in Hrun by done.
      repeat case_decide; subst; try (by eapply Hstick).
      exfalso. by in_literal Hin.
  - intros btnTrans w Hc Hl Ha. unfold directStateSet. rewrite decide_True by done.
    rewrite bind_run. unfold set_button. rewrite decide_True by done.
    rewrite send_run. simpl. rewrite Hc. by eexists.
Qed.

End SendFacts.

(** A recorded push of the left stick, on the Pro Controller. *)
Lemma send_hands_over_current_state_witness :
  ∃ w', @directStateSet sample_externals "lStickUp" (sample_world PRO_CONTROLLER) = (w', Returned tt)
        ∧ written w' = [StateInputReport (controller_state w')].
Proof.
  eexists. split; [vm_compute; reflexivity|].
  eapply (proj1 (proj2 (proj2 (@send_hands_over_current_state sample_externals)))
            "lStickUp" (sample_world PRO_CONTROLLER) _ tt).
  - vm_compute. reflexivity.
  - apply (bool_decide_unpack _). vm_compute. exact I.
Defined.

(** ** The flash image and the variant over a run of the front end *)

Section MainFacts.
Context `{Ext : Externals}.

Lemma _main_spi_flash_file {W} fs path content (w : W) :
  read_file fs path = Some content →
  _main_spi_flash fs (Some path) w = (w, Returned (mkFlashMemory content)).
Proof.
  intros Hf. unfold _main_spi_flash.
  case_decide as Hp.
  - unfold open_rb. rewrite bind_run, Hf. reflexivity.
  - subst path. rewrite read_file_empty_path in Hf. done.
Qed.

Lemma FlashMemory_read_in_bounds fm address len :
  address + len ≤ storage_size fm →
  FlashMemory_read fm address len = Some (take len (drop address (image fm))).
Proof. intros Hb. unfold FlashMemory_read. by rewrite decide_True. Qed.

Lemma FlashMemory_read_all fm : FlashMemory_read fm 0 (storage_size fm) = Some (image fm).
Proof.
  rewrite FlashMemory_read_in_bounds by done. unfold storage_size.
  by rewrite drop_0, firstn_all.
Qed.

(** What a finished run of [_main] went through. *)
Lemma _main_done fs env args events ops w :
  _main fs env args events ops = Server.Done w →
  ∃ fm controller w1,
    _main_spi_flash fs (args_spi_flash args) tt = (tt, Returned fm)
    ∧ from_arg (args_controller args) = Returned controller
    ∧ same_identity (mkWorld (ControllerState_new controller fm) fm [] false []) w1
    ∧ w = run_operations fs ops w1.
Proof.
  unfold _main.
  destruct (_main_spi_flash fs (args_spi_flash args) tt) as [[] [fm|e]]; [|done].
  destruct (from_arg (args_controller args)) as [controller|e]; [|done].
  destruct (Server.create_hid_server _ _ _ _ _ _ _ _) as [l [[transport protocol]|e|]] eqn:Hsrv;
    [|done..].
  assert (protocol = mkProtocol controller fm) as ->.
  { unfold Server.create_hid_server in Hsrv.
    destruct (Server.establish _ _ _ _ _) as [w' [[ci cc]|e]]; [|done].
    case_match; by simplify_eq. }
  unfold get_controller_state. simpl.
  set (w0 := mkWorld (ControllerState_new controller fm) fm [] false []).
  destruct (args_nfc args) as [path|].
  - pose proof (nfc_identity fs [path] w0) as Hk.
    destruct (nfc fs [path] w0) as [w1 [[]|e]]; [|done].
    intros [= <-]. by exists fm, controller, w1.
  - simpl. intros [= <-]. by exists fm, controller, w0.
Qed.

(** C3: with a dump file given, [_main] builds the flash memory from the
    whole content of the file; without one, from the built-in data.  A read
    within bounds gives the bytes of that image at the place asked for, the
    read of the whole storage gives the image, and no operation of the
    front end changes the image: the world a finished run of [_main] ends
    in holds the image it was seeded with. *)
Theorem flash_memory_seeded_from_dump_or_defaults (fs : FileSystem) :
  (∀ path content,
      read_file fs path = Some content →
      _main_spi_flash fs (Some path) tt = (tt, Returned (FlashMemory_new (Some content)))
      ∧ image (FlashMemory_new (Some content)) = content)
  ∧ (_main_spi_flash fs None tt = (tt, Returned (FlashMemory_new None))
     ∧ image (FlashMemory_new None) = default_image)
  ∧ (∀ fm address len,
      address + len ≤ storage_size fm →
      FlashMemory_read fm address len = Some (take len (drop address (image fm))))
  ∧ (∀ fm, FlashMemory_read fm 0 (storage_size fm) = Some (image fm))
  ∧ (∀ ops w, spi_flash (run_operations fs ops w) = spi_flash w)
  ∧ (∀ env args events ops w,
      _main fs env args events ops = Server.Done w →
      _main_spi_flash fs (args_spi_flash args) tt = (tt, Returned (spi_flash w))).
Proof.
  split; [|split; [|split; [|split; [|split]]]].
  - intros path content Hf. split; [|done]. by apply _main_spi_flash_file.
  - done.
  - apply FlashMemory_read_in_bounds.
  - apply FlashMemory_read_all.
  - intros ops w. apply run_operations_identity.
  - intros env args events ops w Hmain.
    apply _main_done in Hmain as (fm & c & w1 & Hfm & _ & [_ Hw1] & ->).
    rewrite Hfm. f_equal. f_equal. simpl in Hw1.
    destruct (run_operations_identity fs ops w1) as [_ Hops]. congruence.
Qed.

(** C10: [from_arg] gives one of the three variants for its three names and
    nothing for any other; no operation of the front end changes the variant
    of the controller state; so in the world a finished run of [_main] ends
    in, after any operations, [get_controller] is the variant [from_arg]
    gave for the argument. *)
Theorem controller_variant_fixed_at_setup (fs : FileSystem) :
  (∀ arg c,
      from_arg arg = Returned c →
      (arg = "JOYCON_L" ∧ c = JOYCON_L) ∨ (arg = "JOYCON_R" ∧ c = JOYCON_R)
      ∨ (arg = "PRO_CONTROLLER" ∧ c = PRO_CONTROLLER))
  ∧ (∀ op w,
      get_controller (controller_state (run_operation fs op w).1)
      = get_controller (controller_state w))
  ∧ (∀ ops w,
      get_controller (controller_state (run_operations fs ops w))
      = get_controller (controller_state w))
  ∧ (∀ env args events ops w,
      _main fs env args events ops = Server.Done w →
      from_arg (args_controller args) = Returned (get_controller (controller_state w))).
Proof.
  split; [|split; [|split]].
  - intros arg c. unfold from_arg. repeat case_decide; intros [= <-]; auto.
  - intros op w. apply run_operation_identity.
  - intros ops w. apply run_operations_identity.
  - intros env args events ops w Hmain.
    apply _main_done in Hmain as (fm & c & w1 & _ & Hc & [Hw1 _] & ->).
    rewrite Hc. f_equal. simpl in Hw1.
    destruct (run_operations_identity fs ops w1) as [Hops _]. congruence.
Qed.

End MainFacts.

(** ** The HID server *)

Section ServerFacts.
Import Server.

Ltac lookup_socket :=
  repeat first [ rewrite lookup_alter_eq | rewrite lookup_alter_ne by lia
               | rewrite lookup_insert_eq | rewrite lookup_insert_ne by lia ].

Ltac run_establish :=
  repeat progress
    (cbv [establish mbind M_bind bind mret M_ret ret raise gets modify socket setblocking
          set_mode setsockopt_reuseaddr bind_sock listen connect_sock sock_accept hid_call
          try_except_OSError assert with_sockets sockets next_fd hid_calls transports wire
          setblocking_calls hid_address ctl_port_taken itr_port_taken
          ctl_port_taken_after_restart itr_port_taken_after_restart ports_taken
          ports_taken_after_restart ports_bound ctl_address itr_address ctl_connect_refused
          itr_connect_refused bound fmap option_fmap option_map orb andb negb fst snd];
     lookup_socket).

(** What [establish] leaves when it returns. *)
Lemma establish_returned env ctl_psm itr_psm reconnect w w' client_itr client_ctl :
  establish env ctl_psm itr_psm reconnect w = (w', Returned (client_itr, client_ctl)) →
  nonblocking w' client_itr = true ∧ nonblocking w' client_ctl = true
  ∧ wire w' = wire w ∧ transports w' = transports w
  ∧ sockets w' !! client_itr ≠ None.
Proof.
  destruct env as [ha pc pi pca pia [ca ?] [ia ?] rc ri], reconnect as [addr|].
  - destruct rc, ri; run_establish; try done. intros [= <- <- <-]. unfold nonblocking. cbn.
    lookup_socket. done.
  - destruct pc, pi, pca, pia; run_establish; try done;
      (destruct (bool_decide (ca = ia)); [|done]);
      intros [= <- <- <-]; unfold nonblocking; cbn; lookup_socket; done.
Qed.

(** What [establish] leaves when it raises. *)
Lemma establish_raised env ctl_psm itr_psm reconnect w w' e :
  establish env ctl_psm itr_psm reconnect w = (w', Raised e) →
  wire w' = wire w ∧ transports w' = transports w.
Proof.
  destruct env as [ha pc pi pca pia [ca ?] [ia ?] rc ri], reconnect as [addr|].
  - destruct rc, ri; run_establish; try done; by intros [= <- _].
  - destruct pc, pi, pca, pia; run_establish;
      try (by intros [= <- _]);
      (destruct (bool_decide (ca = ia)); [done|]); by intros [= <- _].
Qed.

(** The [setblocking] calls of [establish] when it returns: on the two
    sockets it returns in a reconnection, on the two listening sockets, which
    are not the ones it returns, in a pairing. *)
Lemma establish_setblocking_calls env ctl_psm itr_psm reconnect w w' client_itr client_ctl :
  establish env ctl_psm itr_psm reconnect w = (w', Returned (client_itr, client_ctl)) →
  match reconnect with
  | Some _ =>
      setblocking_calls w' = setblocking_calls w ++ [(client_ctl, false); (client_itr, false)]
  | None =>
      setblocking_calls w'
      = setblocking_calls w ++ [(next_fd w, false); (S (next_fd w), false)]
      ∧ is_listening w' (next_fd w) = true
      ∧ is_listening w' (S (next_fd w)) = true
      ∧ client_ctl = S (S (next_fd w)) ∧ client_itr = S (S (S (next_fd w)))
  end.
Proof.
  destruct env as [ha pc pi pca pia [ca ?] [ia ?] rc ri], reconnect as [addr|].
  - destruct rc, ri; run_establish; try done. intros [= <- <- <-]. cbn.
    by rewrite <- app_assoc.
  - destruct pc, pi, pca, pia; run_establish; try done;
      (destruct (bool_decide (ca = ia)); [|done]);
      intros [= <- <- <-]; unfold is_listening; cbn; lookup_socket;
      by rewrite <- app_assoc.
Qed.

(** The pairing path returns only for two connections of one peer, and
    the two sockets it returns are connected to that peer. *)
Lemma establish_pairing_returned env ctl_psm itr_psm w w' client_itr client_ctl :
  establish env ctl_psm itr_psm None w = (w', Returned (client_itr, client_ctl)) →
  (ctl_address env).1 = (itr_address env).1
  ∧ peer_of w' client_ctl = Some (ctl_address env)
  ∧ peer_of w' client_itr = Some (itr_address env).
Proof.
  destruct env as [ha pc pi pca pia [ca ?] [ia ?] rc ri].
  destruct pc, pi, pca, pia; run_establish; try done;
    (destruct (bool_decide (ca = ia)) eqn:Heq; [|done]);
    apply bool_decide_eq_true in Heq;
    intros [= <- <- <-]; unfold peer_of; cbn; lookup_socket; done.
Qed.

(** With two different peers the pairing path raises: the [AssertionError]
    when the ports could be bound, the [OSError] of [bind] when not. *)
Lemma establish_pairing_two_peers env ctl_psm itr_psm w :
  (ctl_address env).1 ≠ (itr_address env).1 →
  ∃ w', establish env ctl_psm itr_psm None w
        = (w', Raised (if ports_bound env then AssertionError else OSError)).
Proof.
  destruct env as [ha pc pi pca pia [ca ?] [ia ?] rc ri]. simpl. intros Hne.
  destruct pc, pi, pca, pia; run_establish;
    try (rewrite bool_decide_eq_false_2 by done);
    eexists; reflexivity.
Qed.

(** When [establish] returns. *)
Lemma establish_returns env ctl_psm itr_psm reconnect w :
  match reconnect with
  | Some _ => ctl_connect_refused env = false ∧ itr_connect_refused env = false
  | None => ports_bound env = true ∧ (ctl_address env).1 = (itr_address env).1
  end →
  ∃ w' client_itr client_ctl,
    establish env ctl_psm itr_psm reconnect w = (w', Returned (client_itr, client_ctl)).
Proof.
  destruct env as [ha pc pi pca pia [ca ?] [ia ?] rc ri], reconnect as [addr|]; simpl.
  - intros [-> ->]. run_establish. by eexists _, _, _.
  - intros [Hp ->]. destruct pc, pi, pca, pia; try discriminate Hp; run_establish;
      try (rewrite bool_decide_eq_true_2 by done);
      by eexists _, _, _.
Qed.

Context `{ControllerProtocol P} (protocol : P).

(** The loop leaves the sockets, the transports and the record of the
    [setblocking] calls alone. *)
Lemma step_world l ev :
  sockets (world (step protocol l ev)) = sockets (world l)
  ∧ transports (world (step protocol l ev)) = transports (world l)
  ∧ setblocking_calls (world (step protocol l ev)) = setblocking_calls (world l).
Proof.
  destruct ev; simpl; [case_decide|unfold reply; destruct (report_received _ _)]; done.
Qed.

Lemma run_loop_world events l :
  sockets (world (run_loop protocol events l)) = sockets (world l)
  ∧ transports (world (run_loop protocol events l)) = transports (world l)
  ∧ setblocking_calls (world (run_loop protocol events l)) = setblocking_calls (world l).
Proof.
  revert l. induction events as [|ev events IH]; intros l; simpl; [done|].
  destruct (IH (step protocol l ev)) as (-> & -> & ->). apply step_world.
Qed.

Lemma run_loop_cons ev events l :
  run_loop protocol (ev :: events) l = run_loop protocol events (step protocol l ev).
Proof. reflexivity. Qed.

Lemma empty_reports_sent_snoc wire ev :
  empty_reports_sent (wire ++ [ev])
  = empty_reports_sent wire + (if is_empty_report ev then 1 else 0).
Proof.
  unfold empty_reports_sent. rewrite filter_app, length_app. f_equal.
  destruct (is_empty_report ev) eqn:He.
  - by rewrite filter_cons_True.
  - rewrite filter_cons_False; [done|]. by rewrite He.
Qed.

Lemma output_reports_received_snoc wire ev :
  output_reports_received (wire ++ [ev])
  = output_reports_received wire + (if is_output_report ev then 1 else 0).
Proof.
  unfold output_reports_received. rewrite filter_app, length_app. f_equal.
  destruct (is_output_report ev) eqn:He.
  - by rewrite filter_cons_True.
  - rewrite filter_cons_False; [done|]. by rewrite He.
Qed.

Lemma sender_runs_cons ev events :
  sender_runs (ev :: events) = (if is_sender_run ev then 1 else 0) + sender_runs events.
Proof.
  unfold sender_runs. destruct (is_sender_run ev) eqn:He.
  - by rewrite filter_cons_True.
  - rewrite filter_cons_False; [done|]. by rewrite He.
Qed.

Lemma output_reports_cons ev events :
  output_reports (ev :: events) = (if is_sender_run ev then 0 else 1) + output_reports events.
Proof.
  unfold output_reports. destruct (is_sender_run ev) eqn:He.
  - rewrite filter_cons_False; [done|]. by rewrite He.
  - by rewrite filter_cons_True.
Qed.

(** What an output report adds to the wire: itself, and the reply of the
    protocol, which is no empty report. *)
Lemma reply_wire data w :
  empty_reports_sent (wire (reply protocol data (data_received data w)))
  = empty_reports_sent (wire w)
  ∧ output_reports_received (wire (reply protocol data (data_received data w)))
    = output_reports_received (wire w) + 1.
Proof.
  unfold reply. destruct (report_received protocol data) as [r|];
    cbn [write data_received wire];
    rewrite ?empty_reports_sent_snoc, ?output_reports_received_snoc;
    cbn [is_empty_report is_output_report]; lia.
Qed.

(** The sender writes one empty report each time it runs, until it has
    written ten; the output reports received do not enter into it. *)
Lemma run_loop_sender events l :
  sender_i l ≤ 10 →
  empty_reports_sent (wire (world (run_loop protocol events l)))
  = empty_reports_sent (wire (world l)) + (sender_runs events) `min` (10 - sender_i l).
Proof.
  revert l. induction events as [|ev events IH]; intros l Hi.
  - simpl. unfold sender_runs. simpl. lia.
  - rewrite run_loop_cons, sender_runs_cons. destruct ev as [|data]; unfold step.
    + case_decide.
      * rewrite IH by (cbn [sender_i]; lia). cbn [world sender_i write wire is_sender_run].
        rewrite empty_reports_sent_snoc. cbn [is_empty_report]. lia.
      * rewrite IH by done. cbn [is_sender_run]. lia.
    + rewrite IH by done. cbn [world sender_i is_sender_run].
      rewrite (proj1 (reply_wire data (world l))). lia.
Qed.

(** [create_hid_server] is past its await as soon as the loop has delivered
    an output report, and not before. *)
Lemma run_loop_returned events l :
  returned (run_loop protocol events l)
  = returned l || bool_decide (0 < output_reports events).
Proof.
  revert l. induction events as [|ev events IH]; intros l.
  - simpl. by rewrite orb_false_r.
  - rewrite run_loop_cons, output_reports_cons, IH. destruct ev as [|data]; unfold step.
    + cbn [is_sender_run]. by destruct (decide (sender_i l < 10)).
    + cbn [is_sender_run returned orb]. destruct (returned l); [done|].
      symmetry. apply bool_decide_eq_true_2. lia.
Qed.

Lemma run_loop_received events l :
  output_reports_received (wire (world (run_loop protocol events l)))
  = output_reports_received (wire (world l)) + output_reports events.
Proof.
  revert l. induction events as [|ev events IH]; intros l.
  - simpl. unfold output_reports. simpl. lia.
  - rewrite run_loop_cons, output_reports_cons, IH. destruct ev as [|data]; unfold step.
    + case_decide; cbn [world write wire is_sender_run]; [|lia].
      rewrite output_reports_received_snoc. cbn [is_output_report]. lia.
    + cbn [world is_sender_run].
      rewrite (proj2 (reply_wire data (world l))). lia.
Qed.

Lemma sender_runs_app events1 events2 :
  sender_runs (events1 ++ events2) = sender_runs events1 + sender_runs events2.
Proof. unfold sender_runs. by rewrite filter_app, length_app. Qed.

End ServerFacts.

Section ServerClaims.
Import Server.
Context `{ControllerProtocol P}.

(** [create_hid_server] does return: once the connections stand and the
    loop has delivered an output report. *)
Lemma create_hid_server_returns (protocol_factory : unit → P) env ctl_psm itr_psm reconnect
    capture events w w' client_itr client_ctl :
  establish env ctl_psm itr_psm reconnect w = (w', Returned (client_itr, client_ctl)) →
  0 < output_reports events →
  ∃ l, create_hid_server protocol_factory env ctl_psm itr_psm reconnect capture events w
       = (l, Done (mkTransport client_itr client_ctl 50 capture, protocol_factory tt)).
Proof.
  intros Hest Hev. unfold create_hid_server. rewrite Hest.
  rewrite run_loop_returned. cbn [returned orb].
  rewrite bool_decide_eq_true_2 by done. by eexists.
Qed.

(** What a call of [create_hid_server] that did not fail went through. *)
Lemma create_hid_server_run (protocol_factory : unit → P) env ctl_psm itr_psm reconnect
    capture events w l c :
  create_hid_server protocol_factory env ctl_psm itr_psm reconnect capture events w = (l, c) →
  (∀ e, c ≠ Failed e) →
  ∃ w' client_itr client_ctl,
    let transport := mkTransport client_itr client_ctl 50 capture in
    establish env ctl_psm itr_psm reconnect w = (w', Returned (client_itr, client_ctl))
    ∧ l = run_loop (protocol_factory tt) events
            (mkLoop (mkWorld (sockets w') (next_fd w') (hid_calls w')
                             (transports w' ++ [transport]) (wire w')
                             (setblocking_calls w')) 0 false)
    ∧ c = (if returned l then Done (transport, protocol_factory tt) else Suspended).
Proof.
  unfold create_hid_server.
  destruct (establish env ctl_psm itr_psm reconnect w) as [w' [[ci cc]|e]].
  - intros [= <- <-] _. by eexists _, _, _.
  - intros [= <- <-] Hc. by destruct (Hc e).
Qed.

(** X22: from the construction of the transport on, each run of the sender
    task sends one empty input report until ten are sent, whatever the
    console has sent meanwhile and whatever the protocol replied; so of the
    runs that come after an output report, those that fall within the ten
    still send theirs. *)
Theorem empty_reports_sent_until_ten (protocol_factory : unit → P) env ctl_psm itr_psm
    reconnect capture events w l c :
  create_hid_server protocol_factory env ctl_psm itr_psm reconnect capture events w = (l, c) →
  (∀ e, c ≠ Failed e) →
  empty_reports_sent (wire (world l))
  = empty_reports_sent (wire w) + sender_runs events `min` 10
  ∧ (∀ before data later,
        events = before ++ OutputReport data :: later →
        empty_reports_sent (wire (world l))
        = empty_reports_sent (wire w) + sender_runs before `min` 10
          + sender_runs later `min` (10 - sender_runs before `min` 10)).
Proof.
  intros Hrun Hc.
  apply create_hid_server_run in Hrun as (w' & ci & cc & Hest & -> & _); [|done].
  apply establish_returned in Hest as (_ & _ & Hwire & _).
  rewrite run_loop_sender by (simpl; lia). cbn [sender_i world wire]. rewrite Hwire.
  split; [lia|]. intros before data later ->.
  rewrite sender_runs_app, sender_runs_cons. cbn [is_sender_run]. lia.
Qed.

(** C6: when [create_hid_server] has returned, the loop has delivered an
    output report, the connection has received it, and the protocol
    returned is the one the factory made. *)
Theorem create_hid_server_returns_after_output_report (protocol_factory : unit → P) env
    ctl_psm itr_psm reconnect capture events w l transport protocol :
  create_hid_server protocol_factory env ctl_psm itr_psm reconnect capture events w
  = (l, Done (transport, protocol)) →
  0 < output_reports events
  ∧ output_reports_received (wire (world l))
    = output_reports_received (wire w) + output_reports events
  ∧ protocol = protocol_factory tt.
Proof.
  intros Hrun.
  apply create_hid_server_run in Hrun as (w' & ci & cc & Hest & Hl & Hc); [|done].
  apply establish_returned in Hest as (_ & _ & Hwire & _).
  assert (Hret : returned l = true) by (by destruct (returned l)).
  rewrite Hret in Hc. injection Hc as _ ->.
  rewrite Hl in Hret |- *. rewrite run_loop_returned in Hret. simpl in Hret.
  apply bool_decide_eq_true in Hret.
  rewrite run_loop_received. simpl. by rewrite Hwire.
Qed.

(** C8: in the pairing path a transport is made only over two connections
    whose peers have one Bluetooth address, the sockets of the transport
    being connected to those peers; with two different addresses the call
    fails, by the [AssertionError] when the ports could be bound and by the
    [OSError] of [bind] when not, and no transport is made. *)
Theorem pairing_accepts_one_peer (protocol_factory : unit → P) env ctl_psm itr_psm
    capture events w :
  (∀ l transport protocol,
      create_hid_server protocol_factory env ctl_psm itr_psm None capture events w
      = (l, Done (transport, protocol)) →
      (ctl_address env).1 = (itr_address env).1
      ∧ peer_of (world l) (ctl_sock transport) = Some (ctl_address env)
      ∧ peer_of (world l) (itr_sock transport) = Some (itr_address env))
  ∧ ((ctl_address env).1 ≠ (itr_address env).1 →
     ∃ l e,
       create_hid_server protocol_factory env ctl_psm itr_psm None capture events w
       = (l, Failed e)
       ∧ transports (world l) = transports w
       ∧ e = (if ports_bound env then AssertionError else OSError)).
Proof.
  split.
  - intros l transport protocol Hrun.
    apply create_hid_server_run in Hrun as (w' & ci & cc & Hest & Hl & Hc); [|done].
    apply establish_pairing_returned in Hest as (Heq & Hpc & Hpi).
    destruct (returned l); [|done]. injection Hc as -> _.
    unfold peer_of in *. rewrite Hl. destruct (run_loop_world (protocol_factory tt) events
      (mkLoop (mkWorld (sockets w') (next_fd w') (hid_calls w')
                 (transports w' ++ [mkTransport ci cc 50 capture]) (wire w')
                 (setblocking_calls w')) 0 false))
      as (-> & _).
    done.
  - intros Hne.
    destruct (establish_pairing_two_peers env ctl_psm itr_psm w Hne) as (w' & Hest).
    unfold create_hid_server. rewrite Hest. eexists _, _. split; [reflexivity|].
    apply establish_raised in Hest as [_ Ht]. done.
Qed.

(** C9, as the code has it: when the transport is made its two sockets are
    in non-blocking mode, in both paths, and they stay so in the world the
    loop leaves.  In a reconnection [create_hid_server] has set them so
    itself.  In a pairing the sockets it has set so are the two listening
    ones, and it has made no such call on the two sockets of the
    transport. *)
Theorem transport_sockets_nonblocking (protocol_factory : unit → P) :
  (∀ env ctl_psm itr_psm reconnect w w' client_itr client_ctl,
      establish env ctl_psm itr_psm reconnect w = (w', Returned (client_itr, client_ctl)) →
      nonblocking w' client_itr = true ∧ nonblocking w' client_ctl = true
      ∧ match reconnect with
        | Some _ =>
            set_nonblocking_by_server w w' client_ctl = true
            ∧ set_nonblocking_by_server w w' client_itr = true
        | None =>
            is_listening w' (next_fd w) = true ∧ is_listening w' (S (next_fd w)) = true
            ∧ set_nonblocking_by_server w w' (next_fd w) = true
            ∧ set_nonblocking_by_server w w' (S (next_fd w)) = true
            ∧ set_nonblocking_by_server w w' client_ctl = false
            ∧ set_nonblocking_by_server w w' client_itr = false
        end)
  ∧ (∀ env ctl_psm itr_psm reconnect capture events w l c,
      create_hid_server protocol_factory env ctl_psm itr_psm reconnect capture events w
      = (l, c) →
      (∀ e, c ≠ Failed e) →
      ∃ transport,
        transports (world l) = transports w ++ [transport]
        ∧ nonblocking (world l) (itr_sock transport) = true
        ∧ nonblocking (world l) (ctl_sock transport) = true).
Proof.
  split.
  - intros env ctl_psm itr_psm reconnect w w' ci cc Hest.
    pose proof (establish_setblocking_calls _ _ _ _ _ _ _ _ Hest) as Hcalls.
    apply establish_returned in Hest as (? & ? & _).
    split; [done|split; [done|]]. unfold set_nonblocking_by_server.
    destruct reconnect as [addr|].
    + rewrite Hcalls, drop_app_length.
      split; apply bool_decide_eq_true_2; set_solver.
    + destruct Hcalls as (-> & ? & ? & -> & ->). rewrite drop_app_length.
      split; [done|split; [done|]].
      split; [apply bool_decide_eq_true_2; set_solver|].
      split; [apply bool_decide_eq_true_2; set_solver|].
      split; apply bool_decide_eq_false_2; rewrite !elem_of_cons, elem_of_nil;
        intros [[=]|[[=]|[]]]; lia.
  - intros env ctl_psm itr_psm reconnect capture events w l c Hrun Hc.
    apply create_hid_server_run in Hrun as (w' & ci & cc & Hest & -> & _); [|done].
    apply establish_returned in Hest as (Hi & Hcc & _ & Ht & _).
    exists (mkTransport ci cc 50 capture).
    unfold nonblocking in *.
    destruct (run_loop_world (protocol_factory tt) events
      (mkLoop (mkWorld (sockets w') (next_fd w') (hid_calls w')
                 (transports w' ++ [mkTransport ci cc 50 capture]) (wire w')
                 (setblocking_calls w')) 0 false))
      as (-> & -> & _).
    simpl. by rewrite Ht.
Qed.

End ServerClaims.

(** C1 does not hold of the code: in the sample reconnection the console
    answers the first empty report, the protocol replies,
    [create_hid_server] returns, and the sender, which nothing has
    cancelled, sends its second empty report after that. *)
Lemma empty_report_sent_after_first_contact :
  sample_reconnection.2 = Server.Done (Server.mkTransport 1 0 50 None, tt)
  ∧ Server.wire (Server.world sample_reconnection.1)
    = [Server.Sent EmptyInputReport; Server.Received [Byte.x01];
       Server.Sent (ReplyInputReport [Byte.x21]); Server.Sent EmptyInputReport]
  ∧ no_empty_report_after_first_contact (Server.wire (Server.world sample_reconnection.1))
    = false.
Proof. vm_compute. done. Qed.

(** C9, as the spec has it, fails in the pairing path: the transport of the
    sample pairing is made over the accepted connections, sockets 3 and 2,
    and the [setblocking] calls of [create_hid_server] were on the listening
    sockets 0 and 1. *)
Lemma pairing_sets_listening_sockets_nonblocking :
  sample_pairing.2 = Server.Done (Server.mkTransport 3 2 50 None, tt)
  ∧ Server.setblocking_calls (Server.world sample_pairing.1) = [(0, false); (1, false)]
  ∧ set_nonblocking_by_server Server.empty_world (Server.world sample_pairing.1) 2 = false
  ∧ set_nonblocking_by_server Server.empty_world (Server.world sample_pairing.1) 3 = false.
Proof. vm_compute. done. Qed.

(** The sample reconnection: two runs of the sender, two empty reports. *)
Lemma empty_reports_sent_until_ten_witness :
  empty_reports_sent (Server.wire (Server.world sample_reconnection.1)) = 0 + 2 `min` 10.
Proof.
  refine (proj1 (empty_reports_sent_until_ten (λ _, tt) sample_env 17 19
                   (Some "98:B6:E9:0A:0B:0C") None sample_events Server.empty_world
                   sample_reconnection.1 sample_reconnection.2 _ _)).
  - vm_compute. reflexivity.
  - vm_compute. intros e H. discriminate H.
Defined.

(** The sample pairing returns, on the output report among its events. *)
Lemma create_hid_server_returns_after_output_report_witness :
  0 < output_reports sample_events.
Proof.
  refine (proj1 (create_hid_server_returns_after_output_report (λ _, tt) sample_env 17 19
                   None None sample_events Server.empty_world sample_pairing.1
                   (Server.mkTransport 3 2 50 None) tt _)).
  vm_compute. reflexivity.
Defined.

(** The sample pairing has one peer. *)
Lemma pairing_accepts_one_peer_witness :
  (Server.ctl_address sample_env).1 = (Server.itr_address sample_env).1.
Proof.
  refine (proj1 (proj1 (pairing_accepts_one_peer (λ _, tt) sample_env 17 19 None
                          sample_events Server.empty_world)
                   sample_pairing.1 (Server.mkTransport 3 2 50 None) tt _)).
  vm_compute. reflexivity.
Defined.

(** The sample pairing: the accepted connections, sockets 3 and 2, and the
    listening sockets 0 and 1. *)
Lemma transport_sockets_nonblocking_witness :
  let w' := (Server.establish sample_env 17 19 None Server.empty_world).1 in
  nonblocking w' 3 = true ∧ nonblocking w' 2 = true
  ∧ is_listening w' 0 = true ∧ is_listening w' 1 = true
  ∧ set_nonblocking_by_server Server.empty_world w' 0 = true
  ∧ set_nonblocking_by_server Server.empty_world w' 1 = true
  ∧ set_nonblocking_by_server Server.empty_world w' 2 = false
  ∧ set_nonblocking_by_server Server.empty_world w' 3 = false.
Proof.
  refine (proj1 (transport_sockets_nonblocking (λ _, tt)) sample_env 17 19 None
            Server.empty_world _ 3 2 _).
  vm_compute. reflexivity.
Defined.

(** The sample flash dump of eight bytes. *)
Lemma flash_memory_seeded_from_dump_or_defaults_witness :
  @_main_spi_flash sample_externals unit sample_fs (Some "flash.bin") tt
  = (tt, Returned (mkFlashMemory (sample_dump ++ sample_dump))).
Proof.
  refine (proj1 (proj1 (@flash_memory_seeded_from_dump_or_defaults sample_externals sample_fs)
                   "flash.bin" (sample_dump ++ sample_dump) _)).
  vm_compute. reflexivity.
Defined.

(** The sample run of [_main] as a Pro Controller. *)
Lemma controller_variant_fixed_at_setup_witness :
  from_arg "PRO_CONTROLLER" = Returned (get_controller (controller_state sample_main_world)).
Proof.
  refine (proj2 (proj2 (proj2 (@controller_variant_fixed_at_setup sample_externals sample_fs)))
            sample_env sample_args sample_events sample_ops sample_main_world _).
  vm_compute. reflexivity.
Defined.

(** * Further properties *)

(** ** The keyboard *)

Arguments keyBinding : simpl never.
Arguments bindKeyboard : simpl never.

Section KeyboardFacts.
Context `{Ext : Externals} `{Kbd : Keyboard}.

Lemma find_namedKey_last key keys acc :
  (∀ k, k ∈ keys → is_Some (key_to_scan_codes k)) →
  find_namedKey key keys acc
  = Returned (match last (filter (λ k, first_code k = Some key) keys) with
              | Some k => Some k
              | None => acc
              end).
Proof.
  revert acc. induction keys as [|k keys IH]; intros acc Hmapped; simpl; [done|].
  destruct (Hmapped k) as [[code rest] Hk]; [left|].
  assert (Hcode : first_code k = Some code) by (unfold first_code; by rewrite Hk).
  rewrite Hk. rewrite IH by (intros k' Hk'; apply Hmapped; by right).
  rewrite filter_cons.
  destruct (decide (code = key)) as [->|Hne];
    destruct (decide (first_code k = Some key)) as [Hm|Hm]; try congruence.
  rewrite last_cons. by case_match.
Qed.

Lemma find_namedKey_unmapped key keys acc k :
  k ∈ keys → key_to_scan_codes k = None →
  ∃ msg, find_namedKey key keys acc = Raised (ValueError msg).
Proof.
  revert acc. induction keys as [|k' keys IH]; intros acc Hin Hk; [by apply elem_of_nil in Hin|].
  simpl. destruct (key_to_scan_codes k') as [[code rest]|] eqn:Hk'; [|by eexists].
  apply elem_of_cons in Hin as [->|Hin]; [congruence|]. by apply IH.
Qed.

Lemma keyBinding_lookup k name :
  keyBinding !! k = Some name →
  (k, name) ∈ [("q", "left"); ("w", "lStickUp"); ("e", "up"); ("r", "zl"); ("t", "l");
               ("y", "r"); ("u", "zr"); ("i", "rStickUp"); ("a", "lStickL");
               ("s", "lStickDown"); ("d", "lStickR"); ("f", "right"); ("g", "capture");
               ("h", "home"); ("j", "rStickL"); ("k", "rStickDown"); ("l", "rStickR");
               ("c", "down"); ("up", "x"); ("down", "b"); ("left", "y"); ("right", "a");
               ("-", "minus"); ("+", "plus")].
Proof. apply elem_of_list_to_map_2. Qed.

(** X1: on a keyboard that has all the test keys, [keyToConBtn] gives the
    binding of the last test key whose first scan code is the key, and
    [None] when there is no such test key. *)
Theorem keyToConBtn_last_test_key_wins (key : nat) :
  (∀ k, k ∈ testKeys → is_Some (key_to_scan_codes k)) →
  keyToConBtn key
  = Returned (k ← last (filter (λ k, first_code k = Some key) testKeys); keyBinding !! k).
Proof.
  intros Hmapped. unfold keyToConBtn. rewrite find_namedKey_last by done.
  destruct (last (filter _ testKeys)) as [k|]; [|reflexivity].
  cbn [mbind option_bind]. destruct (keyBinding !! k); reflexivity.
Qed.

(** X2: when the first scan codes of the test keys differ from one another,
    the first scan code of a test key gives back the binding of that key,
    which it has. *)
Theorem keyToConBtn_of_first_code (k : string) (code : nat) :
  (∀ k, k ∈ testKeys → is_Some (key_to_scan_codes k)) →
  (∀ k1 k2, k1 ∈ testKeys → k2 ∈ testKeys → first_code k1 = first_code k2 → k1 = k2) →
  k ∈ testKeys → first_code k = Some code →
  ∃ name, keyBinding !! k = Some name ∧ keyToConBtn code = Returned (Some name).
Proof.
  intros Hmapped Hinj Hk Hcode.
  assert (Hname : is_Some (keyBinding !! k)).
  { unfold testKeys in Hk. in_literal Hk; subst k; by eexists. }
  destruct Hname as [name Hname]. exists name. split; [done|].
  unfold keyToConBtn. rewrite find_namedKey_last by done.
  destruct (last _) as [k'|] eqn:Hlast.
  - apply last_Some_elem_of, list_elem_of_filter in Hlast as [Hc' Hk'].
    rewrite (Hinj k' k) by congruence. by rewrite Hname.
  - apply last_None in Hlast.
    assert (k ∈ filter (λ k0, first_code k0 = Some code) testKeys) as Hin
      by by apply list_elem_of_filter.
    rewrite Hlast in Hin. by apply elem_of_nil in Hin.
Qed.

(** X3: one test key the keyboard does not have makes [keyToConBtn] raise
    [ValueError] for every key. *)
Theorem keyToConBtn_unmapped_test_key (k : string) (key : nat) :
  k ∈ testKeys → key_to_scan_codes k = None →
  ∃ msg, keyToConBtn key = Raised (ValueError msg).
Proof.
  intros Hk Hnone. unfold keyToConBtn.
  destruct (find_namedKey_unmapped key testKeys None k Hk Hnone) as [msg ->]. by eexists.
Qed.

(** X4: every name [keyToConBtn] gives is one of the buttons and stick
    events [directStateSet] acts on. *)
Theorem keyToConBtn_gives_directStateSet_names (key : nat) (name : string) :
  keyToConBtn key = Returned (Some name) →
  name ∈ btnsList ++ lStickList ++ rStickList.
Proof.
  unfold keyToConBtn. destruct (find_namedKey key testKeys None) as [[k|]|e]; [|done..].
  destruct (keyBinding !! k) as [name'|] eqn:Hb; [|done]. intros [= ->].
  apply keyBinding_lookup in Hb. in_literal Hb; injection Hb as -> ->;
    apply (bool_decide_unpack _); vm_compute; exact I.
Qed.

(** X5: the keys [bindKeyboard] binds are the keys of [keyBinding]; and
    playing back the name a key is recorded under does what pressing the
    key does, followed by [send]. *)
Theorem playback_does_what_the_key_did (k name : string) :
  keyBinding !! k = Some name →
  ∃ press release,
    bindKeyboard !! k = Some (press, release)
    ∧ on_press_key k = press
    ∧ ∀ w, directStateSet name w = (press ;; send) w.
Proof.
  intros Hb. apply keyBinding_lookup in Hb. unfold on_press_key.
  in_literal Hb; injection Hb as -> ->;
    (eexists _, _; split; [reflexivity|]; split; [reflexivity|]; intros w; reflexivity).
Qed.

(** X27: the test keys of [keyToConBtn], the keys of its dictionary and the
    keys [bindKeyboard] binds are the same 24 keys. *)
Theorem recorded_keys_are_bound_keys (k : string) :
  (k ∈ testKeys ↔ is_Some (keyBinding !! k))
  ∧ (k ∈ testKeys ↔ is_Some (bindKeyboard !! k)).
Proof.
  split; split.
  - intros Hk. unfold testKeys in Hk. in_literal Hk; subst k; by eexists.
  - intros [name Hb]. apply keyBinding_lookup in Hb.
    in_literal Hb; injection Hb as -> _; apply (bool_decide_unpack _); vm_compute; exact I.
  - intros Hk. unfold testKeys in Hk. in_literal Hk; subst k; by eexists.
  - intros [cb Hb]. apply elem_of_list_to_map_2 in Hb.
    in_literal Hb; injection Hb as -> _; apply (bool_decide_unpack _); vm_compute; exact I.
Qed.

End KeyboardFacts.

(** ** Scripts that push buttons *)

#[global] Instance script_frame_refl : Reflexive script_frame.
Proof. intros w. unfold script_frame, no_new_press. naive_solver. Qed.
#[global] Instance script_frame_trans : Transitive script_frame.
Proof.
  intros w1 w2 w3 (?&?&?&?&?&?&?&H12) (?&?&?&?&?&?&?&H23).
  unfold script_frame, no_new_press in *. repeat split; try congruence. auto.
Qed.

Section ScriptFacts.
Context `{Ext : Externals}.

Lemma pushes_through_eq B c pushes lines pushes' lines' :
  pushes_through B c pushes lines → pushes = pushes' → lines = lines' →
  pushes_through B c pushes' lines'.
Proof. by intros H <- <-. Qed.

Lemma pushes_through_ret B : pushes_through B (ret tt) 0 [].
Proof.
  intros w Hc Hb. exists w. split; [done|]. split; [reflexivity|].
  split; [lia|]. by rewrite app_nil_r.
Qed.

Lemma pushes_through_print B line : pushes_through B (print line) 0 [line].
Proof.
  intros w Hc Hb. eexists. split; [reflexivity|]. simpl.
  split; [|split; [lia|done]]. unfold script_frame, no_new_press. naive_solver.
Qed.

Lemma pushes_through_bind B (c : M World unit) (k : unit → M World unit) p1 l1 p2 l2 :
  pushes_through B c p1 l1 → (∀ a, pushes_through B (k a) p2 l2) →
  pushes_through B (c ≫= k) (p1 + p2) (l1 ++ l2).
Proof.
  intros Hc Hk w Hopen Hb.
  destruct (Hc w Hopen Hb) as (w1 & Hrun1 & Hf1 & Hw1 & Hs1).
  assert (Hopen1 : closed w1 = false) by (destruct Hf1 as (-> & _); done).
  assert (Hb1 : ∀ b, b ∈ B → b ∈ get_available_buttons (get_controller (controller_state w1))).
  { destruct Hf1 as (_ & _ & -> & _). done. }
  destruct (Hk tt w1 Hopen1 Hb1) as (w2 & Hrun2 & Hf2 & Hw2 & Hs2).
  exists w2. rewrite bind_run, Hrun1, Hrun2. split; [done|].
  split; [by etrans|]. split; [lia|]. by rewrite Hs2, Hs1, app_assoc.
Qed.

Lemma pushes_through_repeat_m B n body p l :
  pushes_through B body p l →
  pushes_through B (repeat_m n body) (n * p) (concat (replicate n l)).
Proof.
  intros Hb. induction n as [|n IH]; simpl.
  - apply pushes_through_ret.
  - by apply pushes_through_bind.
Qed.

Lemma pushes_through_for_range B n i body (p : nat → nat) (l : nat → list string) :
  (∀ j, pushes_through B (body j) (p j) (l j)) →
  pushes_through B (for_range i n body) (sum_range p i n) (concat (l <$> seq i n)).
Proof.
  intros Hb. revert i. induction n as [|n IH]; intros i; simpl.
  - apply pushes_through_ret.
  - apply pushes_through_bind; [apply Hb|]. intros _. apply IH.
Qed.

Lemma pushes_through_if B (P : Prop) `{!Decision P} c1 c2 p1 l1 p2 l2 :
  pushes_through B c1 p1 l1 → pushes_through B c2 p2 l2 →
  pushes_through B (if decide P then c1 else c2)
    (if decide P then p1 else p2) (if decide P then l1 else l2).
Proof. intros H1 H2. by destruct (decide P). Qed.

Lemma set_button_run button pushed w :
  button ∈ get_available_buttons (get_controller (controller_state w)) →
  set_button button pushed w
  = (set_controller_state
       (λ st, mkControllerState (get_controller st) (<[button:=pushed]> (button_state st))
                (l_stick_state st) (r_stick_state st) (imu_samples st) (nfc_content st)) w,
     Returned tt).
Proof. intros Hb. unfold set_button. by rewrite decide_True. Qed.

(** One push, as [button_push] does it. *)
Lemma button_push_run button sec w :
  closed w = false →
  button ∈ get_available_buttons (get_controller (controller_state w)) →
  let pressed :=
    mkControllerState (get_controller (controller_state w))
      (<[button:=true]> (button_state (controller_state w)))
      (l_stick_state (controller_state w)) (r_stick_state (controller_state w))
      (imu_samples (controller_state w)) (nfc_content (controller_state w)) in
  let released :=
    mkControllerState (get_controller (controller_state w))
      (<[button:=false]> (<[button:=true]> (button_state (controller_state w))))
      (l_stick_state (controller_state w)) (r_stick_state (controller_state w))
      (imu_samples (controller_state w)) (nfc_content (controller_state w)) in
  button_push button sec w
  = (mkWorld released (spi_flash w)
             (written w ++ [StateInputReport pressed] ++ [StateInputReport released])
             false (stdout w),
     Returned tt).
Proof.
  intros Hopen Hb pressed released. unfold button_push.
  rewrite bind_run, (set_button_run button true w Hb).
  rewrite bind_run, send_run. cbn [closed set_controller_state]. rewrite Hopen.
  rewrite bind_run. cbn [sleep ret].
  rewrite bind_run, set_button_run by done.
  rewrite send_run. cbn [closed set_controller_state controller_state written spi_flash stdout
                         get_controller button_state l_stick_state r_stick_state imu_samples
                         nfc_content].
  by rewrite <- app_assoc.
Qed.

Lemma pushes_through_button_push B button sec :
  button ∈ B → pushes_through B (button_push button sec) 1 [].
Proof.
  intros Hin w Hopen Hb. eexists. split; [by apply button_push_run; auto|]. simpl.
  split; [|split; [rewrite !length_app; simpl; lia|by rewrite app_nil_r]].
  unfold script_frame, no_new_press. simpl. repeat split; try done.
  intros b. destruct (decide (button = b)) as [->|Hne].
  - by rewrite lookup_insert_eq.
  - by rewrite !lookup_insert_ne.
Qed.

End ScriptFacts.

Ltac pushes_step :=
  lazymatch goal with
  | |- pushes_through _ (ret _) _ _ => apply pushes_through_ret
  | |- pushes_through _ (sleep _) _ _ => apply pushes_through_ret
  | |- pushes_through _ connect _ _ => apply pushes_through_ret
  | |- pushes_through _ (print _) _ _ => apply pushes_through_print
  | |- pushes_through _ (button_push _ _) _ _ =>
      apply pushes_through_button_push; apply (bool_decide_unpack _); vm_compute; exact I
  | |- pushes_through _ (_ ≫= _) _ _ => eapply pushes_through_bind; [|intros ?]
  | |- pushes_through _ (repeat_m _ _) _ _ => eapply pushes_through_repeat_m
  | |- pushes_through _ (for_range _ _ _) _ _ => eapply pushes_through_for_range; intros ?
  | |- pushes_through _ (if decide _ then _ else _) _ _ => eapply pushes_through_if
  end.

Section ScriptRuns.
Context `{Ext : Externals}.

Lemma pro_controller_only_passes (rest : M World unit) w :
  get_controller (controller_state w) = PRO_CONTROLLER →
  (pro_controller_only ;; rest) w = rest w.
Proof.
  intros Hc. unfold pro_controller_only. rewrite !bind_run. simpl. rewrite Hc. reflexivity.
Qed.

Lemma pro_controller_only_refuses (rest : M World unit) w :
  get_controller (controller_state w) ≠ PRO_CONTROLLER →
  (pro_controller_only ;; rest) w
  = (w, Raised (ValueError "This script only works with the Pro Controller!")).
Proof.
  intros Hc. unfold pro_controller_only. rewrite !bind_run. simpl. by rewrite decide_True.
Qed.

(** X6: on a variant that is not the Pro Controller the three scripts raise
    [ValueError] at once: no button is pushed, nothing is sent or
    printed. *)
Theorem scripts_refuse_other_variants (w : World) :
  get_controller (controller_state w) ≠ PRO_CONTROLLER →
  let refused := (w, Raised (ValueError "This script only works with the Pro Controller!")) in
  date_skipper w = refused
  ∧ (∀ rounds, run_auto_host rounds w = refused)
  ∧ friend_remover w = refused.
Proof.
  intros Hc refused. split; [|split].
  - unfold date_skipper. cbv zeta. by apply pro_controller_only_refuses.
  - intros rounds. unfold run_auto_host. by apply pro_controller_only_refuses.
  - unfold friend_remover. by apply pro_controller_only_refuses.
Qed.

(** X7: on a Pro Controller that has the buttons a and down, and while the
    connection stands, [friend_remover] runs to its end: 50 rounds of 6
    pushes, two reports a push, the 50 lines "0/50" to "49/50" printed, and
    no button left pressed that was not, the rest of the state untouched. *)
Theorem friend_remover_runs (w : World) :
  get_controller (controller_state w) = PRO_CONTROLLER →
  closed w = false →
  (∀ b, b ∈ friend_remover_buttons → b ∈ get_available_buttons PRO_CONTROLLER) →
  ∃ w', friend_remover w = (w', Returned tt)
        ∧ script_frame w w'
        ∧ length (written w') = length (written w) + 2 * (50 * 6)
        ∧ stdout w' = stdout w ++ ((λ i, pretty i +:+ "/50") <$> seq 0 50).
Proof.
  intros Hc Hopen Hb. unfold friend_remover. rewrite pro_controller_only_passes by done.
  cbv zeta.
  eapply pushes_through_eq with (B := friend_remover_buttons);
    [repeat pushes_step | vm_compute; reflexivity | vm_compute; reflexivity | done |].
  by rewrite Hc.
Qed.

(** X8: on a Pro Controller that has the six buttons it pushes, and while
    the connection stands, [date_skipper] runs to its end: 17 pushes to
    reach the date, 11 for each of the 815 days and 6 more after every
    thirtieth, two reports a push, a line printed per day, and no button
    left pressed that was not. *)
Theorem date_skipper_runs (w : World) :
  get_controller (controller_state w) = PRO_CONTROLLER →
  closed w = false →
  (∀ b, b ∈ date_skipper_buttons → b ∈ get_available_buttons PRO_CONTROLLER) →
  ∃ w', date_skipper w = (w', Returned tt)
        ∧ script_frame w w'
        ∧ length (written w') = length (written w) + 2 * (17 + 815 * 11 + 27 * 6)
        ∧ stdout w' = stdout w ++ ((λ i, pretty i +:+ "/815") <$> seq 0 815).
Proof.
  intros Hc Hopen Hb. unfold date_skipper. cbv zeta.
  rewrite pro_controller_only_passes by done.
  eapply pushes_through_eq with (B := date_skipper_buttons);
    [repeat pushes_step | vm_compute; reflexivity | vm_compute; reflexivity | done |].
  by rewrite Hc.
Qed.

(** X9: on a Pro Controller that has the eleven buttons it pushes, and
    while the connection stands, every round of [run_auto_host] runs to its
    end: 251 pushes and 31 lines a round, and no button left pressed that
    was not. *)
Theorem run_auto_host_runs (rounds : nat) (w : World) :
  get_controller (controller_state w) = PRO_CONTROLLER →
  closed w = false →
  (∀ b, b ∈ run_auto_host_buttons → b ∈ get_available_buttons PRO_CONTROLLER) →
  ∃ w', run_auto_host rounds w = (w', Returned tt)
        ∧ script_frame w w'
        ∧ length (written w') = length (written w) + 2 * (rounds * 251)
        ∧ stdout w' = stdout w ++ concat (replicate rounds run_auto_host_lines).
Proof.
  intros Hc Hopen Hb. unfold run_auto_host.
  rewrite pro_controller_only_passes by done.
  assert (Hround : pushes_through run_auto_host_buttons run_auto_host_round 251
                     run_auto_host_lines).
  { unfold run_auto_host_round. cbv zeta.
    eapply pushes_through_eq;
      [repeat pushes_step | vm_compute; reflexivity | vm_compute; reflexivity]. }
  eapply pushes_through_eq with (B := run_auto_host_buttons);
    [eapply pushes_through_bind; [apply pushes_through_ret|intros _];
     apply pushes_through_repeat_m, Hround
    | simpl; reflexivity | reflexivity | done |].
  by rewrite Hc.
Qed.

End ScriptRuns.

(** ** Playback steps, mashing and the NFC command *)

#[global] Instance presses_only_refl : Reflexive presses_only.
Proof. by intros w. Qed.
#[global] Instance presses_only_trans : Transitive presses_only.
Proof. intros w1 w2 w3 (H1&?&?) (H2&?&?). repeat split; [auto|congruence..]. Qed.
#[global] Instance same_sticks_refl : Reflexive same_sticks.
Proof. by intros w. Qed.
#[global] Instance same_sticks_trans : Transitive same_sticks.
Proof. intros w1 w2 w3 [? ?] [? ?]. split; congruence. Qed.
#[global] Instance same_buttons_refl : Reflexive same_buttons.
Proof. by intros w. Qed.
#[global] Instance same_buttons_trans : Transitive same_buttons.
Proof. unfold same_buttons. intros w1 w2 w3 ? ?. congruence. Qed.
#[global] Instance same_written_refl : Reflexive same_written.
Proof. by intros w. Qed.
#[global] Instance same_written_trans : Transitive same_written.
Proof. unfold same_written. intros w1 w2 w3 ? ?. congruence. Qed.

Section PlaybackFacts.
Context `{Ext : Externals}.

Lemma set_button_true_presses_only button : keeps presses_only (set_button button true).
Proof.
  intros w. unfold set_button. case_decide; [|done]. simpl. split; [|done].
  intros b Hb. simpl. destruct (decide (button = b)) as [->|Hne].
  - by rewrite lookup_insert_eq.
  - by rewrite lookup_insert_ne.
Qed.

Lemma _set_stick_presses_only stick direction : keeps presses_only (_set_stick stick direction).
Proof. intros w. unfold _set_stick. case_match; [|done]. by destruct stick. Qed.

Lemma send_presses_only : keeps presses_only send.
Proof. intros w. unfold send. by case_match. Qed.

Lemma set_button_same_sticks button pushed : keeps same_sticks (set_button button pushed).
Proof. intros w. unfold set_button. by case_decide. Qed.

Lemma send_same_sticks : keeps same_sticks send.
Proof. intros w. unfold send. by case_match. Qed.

Lemma _set_stick_same_buttons stick direction : keeps same_buttons (_set_stick stick direction).
Proof. intros w. unfold _set_stick. case_match; [|done]. by destruct stick. Qed.

Lemma send_same_buttons : keeps same_buttons send.
Proof. intros w. unfold send. by case_match. Qed.

Lemma set_button_same_written button pushed : keeps same_written (set_button button pushed).
Proof. intros w. unfold set_button. by case_decide. Qed.

Lemma _set_stick_same_written stick direction : keeps same_written (_set_stick stick direction).
Proof. intros w. unfold _set_stick. case_match; [|done]. by destruct stick. Qed.

Hint Resolve set_button_true_presses_only _set_stick_presses_only send_presses_only
  set_button_same_sticks send_same_sticks _set_stick_same_buttons send_same_buttons : keeps.

(** A mutation that writes nothing, followed by [send]. *)
Lemma then_send_one_report (c : M World unit) w :
  keeps same_written c →
  written ((c ;; send) w).1 = written w
  ∨ (c ;; send) w = (((c ;; send) w).1, Returned tt)
    ∧ written ((c ;; send) w).1
      = written w ++ [StateInputReport (controller_state ((c ;; send) w).1)].
Proof.
  intros Hc. rewrite bind_run. specialize (Hc w). unfold same_written in Hc.
  destruct (c w) as [w1 [[]|e]]; simpl in *; [|by left].
  rewrite send_run. destruct (closed w1); simpl; [by left|]. right. by rewrite Hc.
Qed.

(** X10: a playback step hands at most one report to the transport, built
    from the state the step leaves, and none when it raises; for a name
    that is none of the recorded buttons and stick events it returns at
    once and changes nothing. *)
Theorem directStateSet_at_most_one_report (btnTrans : string) (w : World) :
  (written (directStateSet btnTrans w).1 = written w
   ∨ directStateSet btnTrans w = ((directStateSet btnTrans w).1, Returned tt)
     ∧ written (directStateSet btnTrans w).1
       = written w ++ [StateInputReport (controller_state (directStateSet btnTrans w).1)])
  ∧ (btnTrans ∉ btnsList ++ lStickList ++ rStickList →
     directStateSet btnTrans w = (w, Returned tt)).
Proof.
  split.
  - unfold directStateSet.
    repeat case_decide;
      first [ by left
            | apply then_send_one_report; auto using set_button_same_written,
                _set_stick_same_written ].
  - intros Hnot. unfold directStateSet.
    rewrite !decide_False; [done|..]; intros Hin; apply Hnot; rewrite !elem_of_app; auto.
Qed.

(** X11: a playback step presses and never releases: a button that was
    pressed stays pressed, the IMU samples and the NFC payload stay; a
    button event leaves the sticks where they were, and any other event
    leaves the buttons as they were. *)
Theorem directStateSet_presses_only (btnTrans : string) (w : World) :
  presses_only w (directStateSet btnTrans w).1
  ∧ (btnTrans ∈ btnsList → same_sticks w (directStateSet btnTrans w).1)
  ∧ (btnTrans ∉ btnsList → same_buttons w (directStateSet btnTrans w).1).
Proof.
  split; [|split].
  - revert w. change (keeps presses_only (directStateSet btnTrans)).
    unfold directStateSet. solve_keeps.
  - intros Hin. revert w. change (keeps same_sticks (directStateSet btnTrans)).
    unfold directStateSet. rewrite decide_True by done. solve_keeps.
  - intros Hnot. revert w. change (keeps same_buttons (directStateSet btnTrans)).
    unfold directStateSet. rewrite decide_False by done. solve_keeps.
Qed.

(** X12: the [mash] command takes exactly a button and an interval: with
    any other number of arguments it raises [ValueError] and does
    nothing. *)
Theorem call_mash_button_needs_two_arguments (args : list string) (extra_rounds : nat)
    (user_input : outcome unit) (w : World) :
  length args ≠ 2 →
  ∃ msg, call_mash_button args extra_rounds user_input w = (w, Raised (ValueError msg)).
Proof.
  intros Hlen. destruct args as [|a1 [|a2 [|a3 args]]]; simpl in *; try lia; by eexists.
Qed.

(** X13: with the button available, the connection standing and an interval
    that is a number of seconds, [mash_button] pushes the button once more
    than the prompt stayed unanswered, so once at least, and ends as the
    prompt did; it prints the prompt and nothing else, and leaves the
    button released. *)
Theorem mash_button_pushes (button interval : string) (ms : N) (extra_rounds : nat)
    (user_input : outcome unit) (w : World) :
  closed w = false →
  button ∈ get_available_buttons (get_controller (controller_state w)) →
  float_ms interval = Some (Finite ms) →
  ∃ w', mash_button button interval extra_rounds user_input w
        = (w', match user_input with Returned _ => Returned tt | Raised e => Raised e end)
        ∧ script_frame w w'
        ∧ length (written w') = length (written w) + 2 * S extra_rounds
        ∧ button_state (controller_state w') !! button = Some false
        ∧ stdout w' = stdout w ++ [mash_prompt button interval].
Proof.
  intros Hopen Hb Hms.
  assert (Hbody : pushes_through [button]
            (button_push button 100 ;;
             match float_ms interval with
             | Some delay => sleep_for delay
             | None => raise (ValueError ("could not convert string to float: "
                                          +:+ repr interval))
             end) 1 []).
  { rewrite Hms. eapply pushes_through_eq;
      [eapply pushes_through_bind;
         [apply pushes_through_button_push; left|intros _; apply pushes_through_ret]
      |reflexivity..]. }
  assert (Hlast : ∀ n w1,
             closed w1 = false →
             button ∈ get_available_buttons (get_controller (controller_state w1)) →
             button_state
               (controller_state
                  (repeat_m (S n)
                     (button_push button 100 ;;
                      match float_ms interval with
                      | Some delay => sleep_for delay
                      | None => raise (ValueError ("could not convert string to float: "
                                                   +:+ repr interval))
                      end) w1).1) !! button = Some false).
  { rewrite Hms. induction n as [|n IH]; intros w1 Hopen1 Hb1.
    - simpl. rewrite !bind_run, button_push_run by done. simpl.
      apply lookup_insert_eq.
    - change (repeat_m (S (S n)) ?body) with (body ;; repeat_m (S n) body).
      rewrite bind_run. rewrite bind_run, button_push_run by done.
      cbn [sleep_for sleep ret]. apply IH; done. }
  set (w0 := (print (mash_prompt button interval) w).1).
  destruct (pushes_through_repeat_m _ (S extra_rounds) _ _ _ Hbody w0 Hopen) as
    (w' & Hrun & Hframe & Hlen & Hout).
  { intros b Hin. apply list_elem_of_singleton in Hin as ->. done. }
  exists w'. split; [|split; [exact Hframe|split; [subst w0; simpl in Hlen; lia|split]]].
  - unfold mash_button. rewrite bind_run. cbn [connect ret]. rewrite bind_run. cbn [gets].
    rewrite (bind_run (if decide _ then _ else _)).
    rewrite decide_False by (intros Hn; by apply Hn).
    cbn [ret]. rewrite (bind_run (print _)).
    change (print (mash_prompt button interval) w) with (w0, Returned tt). cbv beta iota.
    rewrite bind_run, Hrun. by destruct user_input.
  - specialize (Hlast extra_rounds w0 Hopen Hb). by rewrite Hrun in Hlast.
  - rewrite Hout. clear. replace (concat (replicate (S extra_rounds) [])) with (@nil string).
    + by rewrite app_nil_r.
    + induction (S extra_rounds) as [|n IH]; simpl; done.
Qed.

(** X14: [mash_button] reads the interval only after the first push.  With
    an interval that is no number it has written its prompt and pushed the
    button once when [float] raises its [ValueError]; with one that is a
    number but no time that ends, as [inf], it has done the same and leaves
    its first sleep only by being cancelled. *)
Theorem mash_button_bad_interval (button interval : string) (extra_rounds : nat)
    (user_input : outcome unit) (w : World) :
  closed w = false →
  button ∈ get_available_buttons (get_controller (controller_state w)) →
  let w1 := (button_push button 100 (print (mash_prompt button interval) w).1).1 in
  (float_ms interval = None →
   mash_button button interval extra_rounds user_input w
   = (w1, Raised (ValueError ("could not convert string to float: " +:+ repr interval))))
  ∧ (float_ms interval = Some Endless →
     mash_button button interval extra_rounds user_input w = (w1, Raised CancelledError))
  ∧ length (written w1) = length (written w) + 2
  ∧ stdout w1 = stdout w ++ [mash_prompt button interval]
  ∧ button_state (controller_state w1) !! button = Some false.
Proof.
  intros Hopen Hb w1.
  assert (Hstart : ∀ r,
            (match float_ms interval with
             | Some delay => sleep_for delay
             | None => raise (ValueError ("could not convert string to float: "
                                          +:+ repr interval))
             end) w1 = (w1, Raised r) →
            mash_button button interval extra_rounds user_input w = (w1, Raised r)).
  { intros r Hr. unfold mash_button. rewrite bind_run. cbn [connect ret].
    rewrite bind_run. cbn [gets].
    rewrite (bind_run (if decide _ then _ else _)).
    rewrite decide_False by (intros Hn; by apply Hn).
    cbn [ret]. rewrite (bind_run (print _)). cbn [print modify].
    rewrite bind_run. cbn [repeat_m]. rewrite (bind_run (button_push _ _ ;; _)).
    rewrite (bind_run (button_push _ _)).
    unfold w1 in Hr |- *. cbn [print modify fst] in Hr |- *.
    rewrite button_push_run in Hr |- * by done. cbn [fst] in Hr. by rewrite Hr. }
  split; [|split; [|split; [|split]]].
  - intros Hnone. apply Hstart. by rewrite Hnone.
  - intros Hend. apply Hstart. by rewrite Hend.
  - unfold w1. cbn [print modify fst]. rewrite button_push_run by done. simpl.
    rewrite !length_app. simpl. lia.
  - unfold w1. cbn [print modify fst]. by rewrite button_push_run by done.
  - unfold w1. cbn [print modify fst]. rewrite button_push_run by done. simpl.
    apply lookup_insert_eq.
Qed.

End PlaybackFacts.

Section NfcCommandFacts.
Context `{Ext : Externals}.

(** X15: a dump file that cannot be opened makes [set_nfc], and the [nfc]
    command with it, raise what [open] raises ([FileNotFoundError] for a
    file that is not there, [IsADirectoryError] for a directory,
    [PermissionError] for a file that must not be read) and leave the
    world, the payload it holds included, as it was. *)
Theorem nfc_missing_file_keeps_payload (fs : FileSystem) (file_path : string)
    (rest : list string) (w : World) :
  read_file fs file_path = None →
  set_nfc fs file_path w = (w, Raised (open_error fs file_path))
  ∧ (get_controller (controller_state w) ≠ JOYCON_L → file_path ≠ "remove" →
     nfc fs (file_path :: rest) w = (w, Raised (open_error fs file_path)))
  ∧ (open_failure fs file_path = NoSuchFile →
     open_error fs file_path = FileNotFoundError file_path)
  ∧ (open_failure fs file_path = IsADirectory →
     open_error fs file_path = IsADirectoryError file_path)
  ∧ (open_failure fs file_path = PermissionDenied →
     open_error fs file_path = PermissionError file_path).
Proof.
  intros Hf.
  assert (Hset : set_nfc fs file_path w = (w, Raised (open_error fs file_path))).
  { unfold set_nfc, open_rb. by rewrite Hf. }
  split; [done|]. split.
  - intros Hc Hr. unfold nfc. rewrite bind_run. simpl. by repeat case_decide.
  - unfold open_error. by split; [|split]; intros ->.
Qed.

Lemma nfc_depends_on_variant fs args w1 w2 :
  same_but_nfc w1 w2 →
  ∀ r, (nfc fs args w1).2 = Returned r →
  controller_state (nfc fs args w2).1 = controller_state (nfc fs args w1).1.
Proof.
  intros (Hc & Hb & Hl & Hr & Hi) r. unfold nfc. rewrite !bind_run. simpl.
  rewrite Hc. case_decide; [done|].
  destruct args as [|arg0 args]; [done|].
  case_decide.
  - intros _. simpl. by rewrite Hc, Hb, Hl, Hr, Hi.
  - unfold set_nfc, open_rb. destruct (read_file fs arg0) as [content|]; [|done].
    intros _. simpl. by rewrite Hc, Hb, Hl, Hr, Hi.
Qed.

(** The [nfc] command does not hang. *)
Lemma nfc_not_cancelled fs args w : (nfc fs args w).2 ≠ Raised CancelledError.
Proof.
  unfold nfc. rewrite bind_run. simpl. case_decide; [done|].
  destruct args as [|arg0 args]; [done|]. case_decide; [done|].
  unfold set_nfc, open_rb, open_error.
  destruct (read_file fs arg0); [done|]. by destruct (open_failure fs arg0).
Qed.

(** X16: of two [nfc] commands in a row the second decides, when it goes
    through: the controller state is the one the second alone would
    leave. *)
Theorem nfc_last_command_decides (fs : FileSystem) (args1 args2 : list string) (w : World) :
  (nfc fs args2 w).2 = Returned tt →
  controller_state (run_operations fs [OpNfc args1; OpNfc args2] w)
  = controller_state (run_operations fs [OpNfc args2] w).
Proof.
  intros Hret.
  rewrite run_operations_cons by apply nfc_not_cancelled.
  rewrite !run_operations_one. simpl.
  assert (Hsame : same_but_nfc w (nfc fs args1 w).1).
  { revert w Hret. intros w _. revert w. change (keeps same_but_nfc (nfc fs args1)).
    apply nfc_but_nfc. }
  by apply (nfc_depends_on_variant fs args2 w _ Hsame tt).
Qed.

End NfcCommandFacts.

(** ** More on the HID server *)

Section ServerSetUp.
Import Server.

Ltac lookup_socket :=
  repeat first [ rewrite lookup_alter_eq | rewrite lookup_alter_ne by lia
               | rewrite lookup_insert_eq | rewrite lookup_insert_ne by lia ].

Ltac run_establish :=
  repeat progress
    (cbv [establish mbind M_bind bind mret M_ret ret raise gets modify socket setblocking
          set_mode setsockopt_reuseaddr bind_sock listen connect_sock sock_accept hid_call
          try_except_OSError assert with_sockets sockets next_fd hid_calls transports wire
          setblocking_calls hid_address ctl_port_taken itr_port_taken
          ctl_port_taken_after_restart itr_port_taken_after_restart ports_taken
          ports_taken_after_restart ctl_address itr_address ctl_connect_refused
          itr_connect_refused listen_address advertising_calls bound fmap option_fmap
          option_map orb andb negb fst snd];
     lookup_socket).

(** X17: when the pairing path returns, the first new socket listens on
    the control port and the second on the interrupt port, both
    non-blocking and with [SO_REUSEADDR]; they are bound to the address of
    the adapter, or to any address when the ports were taken at first. *)
Theorem pairing_listeners (env : Env) (ctl_psm itr_psm : nat) (w w' : World)
    (client_itr client_ctl : nat) :
  establish env ctl_psm itr_psm None w = (w', Returned (client_itr, client_ctl)) →
  sockets w' !! next_fd w
  = Some (mkSocket false true (Some (listen_address env, ctl_psm)) true None)
  ∧ sockets w' !! S (next_fd w)
    = Some (mkSocket false true (Some (listen_address env, itr_psm)) true None)
  ∧ client_ctl = S (S (next_fd w)) ∧ client_itr = S (S (S (next_fd w)))
  ∧ next_fd w' = S (S (S (S (next_fd w)))).
Proof.
  destruct env as [ha pc pi pca pia [ca ?] [ia ?] rc ri].
  destruct pc, pi, pca, pia; run_establish; try done;
    (destruct (bool_decide (ca = ia)); [|done]);
    intros [= <- <- <-]; cbn; lookup_socket; done.
Qed.

(** X18: the pairing path makes the adapter discoverable and pairable for
    the wait, after a restart of the Bluetooth service when the ports were
    taken.  When it returns it has ended both; when the two connections
    come from different addresses it raises with the adapter still
    discoverable and pairable. *)
Theorem pairing_advertising (env : Env) (ctl_psm itr_psm : nat) (w : World) :
  (∀ w' r, establish env ctl_psm itr_psm None w = (w', Returned r) →
           hid_calls w'
           = hid_calls w ++ advertising_calls env ++ [Discoverable false; Pairable false])
  ∧ (∀ w', establish env ctl_psm itr_psm None w = (w', Raised AssertionError) →
           hid_calls w' = hid_calls w ++ advertising_calls env).
Proof.
  destruct env as [ha pc pi pca pia [ca ?] [ia ?] rc ri].
  split; intros w'; [intros r|];
    (destruct pc, pi, pca, pia; run_establish; try done;
     (destruct (bool_decide (ca = ia)); try done);
     intros [= <-]; cbn; by rewrite <- ?app_assoc).
Qed.

(** X19: when the ports are still taken after the restart, the pairing path
    raises [OSError] with the service restarted and nothing else asked of
    the adapter; [create_hid_server] fails and makes no transport. *)
Theorem pairing_ports_still_taken `{ControllerProtocol P} (protocol_factory : unit → P)
    (env : Env)
    (ctl_psm itr_psm : nat) capture events (w : World) :
  ports_taken env = true → ports_taken_after_restart env = true →
  ∃ l, create_hid_server protocol_factory env ctl_psm itr_psm None capture events w
       = (l, Failed OSError)
       ∧ hid_calls (world l) = hid_calls w ++ [RestartBluetooth]
       ∧ transports (world l) = transports w
       ∧ wire (world l) = wire w.
Proof.
  destruct env as [ha pc pi pca pia [ca ?] [ia ?] rc ri]. unfold create_hid_server.
  destruct pc, pi, pca, pia; simpl; intros Ht Hta; try discriminate Ht; try discriminate Hta;
    run_establish; (eexists; split; [reflexivity|]); done.
Qed.

(** X20: a reconnection asks nothing of the adapter and listens on nothing:
    it connects a first new socket to the control port of the console and a
    second to the interrupt port, and returns them as the control and the
    interrupt socket.  When the console refuses the first [connect], it
    raises [OSError] with the two sockets made and not connected; when the
    console refuses only the second, it raises [OSError] with the first
    socket connected to the control port, still in blocking mode, and the
    second not connected. *)
Theorem reconnection_connects_both_ports (env : Env) (ctl_psm itr_psm : nat) (addr : BtAddr)
    (w : World) :
  hid_calls (establish env ctl_psm itr_psm (Some addr) w).1 = hid_calls w
  ∧ (ctl_connect_refused env = false → itr_connect_refused env = false →
     ∃ w', establish env ctl_psm itr_psm (Some addr) w
           = (w', Returned (S (next_fd w), next_fd w))
           ∧ sockets w' !! next_fd w
             = Some (mkSocket false false None false (Some (addr, ctl_psm)))
           ∧ sockets w' !! S (next_fd w)
             = Some (mkSocket false false None false (Some (addr, itr_psm))))
  ∧ (ctl_connect_refused env = true →
     ∃ w', establish env ctl_psm itr_psm (Some addr) w = (w', Raised OSError)
           ∧ sockets w' !! next_fd w = Some (mkSocket true false None false None)
           ∧ sockets w' !! S (next_fd w) = Some (mkSocket true false None false None))
  ∧ (ctl_connect_refused env = false → itr_connect_refused env = true →
     ∃ w', establish env ctl_psm itr_psm (Some addr) w = (w', Raised OSError)
           ∧ sockets w' !! next_fd w
             = Some (mkSocket true false None false (Some (addr, ctl_psm)))
           ∧ sockets w' !! S (next_fd w) = Some (mkSocket true false None false None)).
Proof.
  destruct env as [ha pc pi pca pia [ca ?] [ia ?] rc ri]. simpl.
  split; [destruct rc, ri; by run_establish|].
  split; [|split]; intros; subst; try destruct ri; run_establish;
    (eexists; split; [reflexivity|]); cbn; lookup_socket; done.
Qed.

Lemma establish_earlier_sockets env ctl_psm itr_psm reconnect w fd :
  fd < next_fd w →
  sockets (establish env ctl_psm itr_psm reconnect w).1 !! fd = sockets w !! fd.
Proof.
  destruct w as [socks nfd calls ts wr sb]. simpl. intros Hfd.
  destruct env as [ha pc pi pca pia [ca ?] [ia ?] rc ri], reconnect as [addr|].
  - destruct rc, ri; run_establish; lookup_socket; done.
  - destruct pc, pi, pca, pia; run_establish; try (lookup_socket; done);
      destruct (bool_decide (ca = ia)); cbn; lookup_socket; done.
Qed.

(** X21: a call of [create_hid_server] leaves the sockets that were there
    before it as they were, and the transports made before it in their
    places, whatever path it takes and however it ends. *)
Theorem create_hid_server_leaves_earlier_connections `{ControllerProtocol P}
    (protocol_factory : unit → P) (env : Env) (ctl_psm itr_psm : nat) reconnect capture events (w : World) :
  let l := (create_hid_server protocol_factory env ctl_psm itr_psm reconnect capture events
              w).1 in
  (∀ fd, fd < next_fd w → sockets (world l) !! fd = sockets w !! fd)
  ∧ transports w `prefix_of` transports (world l).
Proof.
  unfold create_hid_server.
  pose proof (establish_earlier_sockets env ctl_psm itr_psm reconnect w) as Hs.
  destruct (establish env ctl_psm itr_psm reconnect w) as [w' [[ci cc]|e]] eqn:Hest; simpl.
  - destruct (run_loop_world (protocol_factory tt) events
      (mkLoop (mkWorld (sockets w') (next_fd w') (hid_calls w')
                 (transports w' ++ [mkTransport ci cc 50 capture]) (wire w')
                 (setblocking_calls w')) 0 false))
      as (-> & -> & _).
    simpl. split; [done|].
    apply establish_returned in Hest as (_ & _ & _ & -> & _). by apply prefix_app_r.
  - split; [done|]. apply establish_raised in Hest as [_ ->]. done.
Qed.

End ServerSetUp.

(** ** More on [_main] *)

Section MainRuns.
Context `{Ext : Externals}.

(** What a run of [_main] that reached its end went through, step by
    step. *)
Lemma _main_done_steps fs env args events ops w :
  _main fs env args events ops = Server.Done w →
  ∃ fm controller w1,
    let w0 := mkWorld (ControllerState_new controller fm) fm [] false [] in
    _main_spi_flash fs (args_spi_flash args) tt = (tt, Returned fm)
    ∧ from_arg (args_controller args) = Returned controller
    ∧ 0 < output_reports events
    ∧ match args_nfc args with
      | Some path => nfc fs [path] w0 = (w1, Returned tt)
      | None => w1 = w0
      end
    ∧ w = run_operations fs ops w1.
Proof.
  unfold _main.
  destruct (_main_spi_flash fs (args_spi_flash args) tt) as [[] [fm|e]]; [|done].
  destruct (from_arg (args_controller args)) as [controller|e]; [|done].
  destruct (Server.create_hid_server _ _ _ _ _ _ _ _) as [l [[transport protocol]|e|]] eqn:Hsrv;
    [|done..].
  apply create_hid_server_run in Hsrv as (w' & ci & cc & _ & Hl & Hc); [|done].
  assert (Hret : Server.returned l = true) by (by destruct (Server.returned l)).
  rewrite Hret in Hc. injection Hc as _ ->.
  rewrite Hl, run_loop_returned in Hret. simpl in Hret. apply bool_decide_eq_true in Hret.
  unfold get_controller_state, controller_protocol_factory. simpl.
  destruct (args_nfc args) as [path|].
  - destruct (nfc fs [path] _) as [w1 [[]|e]] eqn:Hnfc; [|done].
    intros [= <-]. by exists fm, controller, w1.
  - simpl. intros [= <-]. by eexists fm, controller, _.
Qed.

(** X23: [_main] reads the flash dump and the controller name before it
    opens any connection: a dump file that cannot be opened ends it with
    what [open] raises, and an unknown name with what [from_arg] raises,
    whatever the adapter and the console would do. *)
Theorem _main_checks_arguments_first (fs : FileSystem) (args : Args) :
  (∀ path, args_spi_flash args = Some path → path ≠ "" → read_file fs path = None →
     ∀ env events ops, _main fs env args events ops = Server.Failed (open_error fs path))
  ∧ (∀ fm e, _main_spi_flash fs (args_spi_flash args) tt = (tt, Returned fm) →
       from_arg (args_controller args) = Raised e →
       ∀ env events ops, _main fs env args events ops = Server.Failed e).
Proof.
  split.
  - intros path Hp Hne Hf env events ops. unfold _main, _main_spi_flash. rewrite Hp.
    rewrite decide_True by done. unfold open_rb. rewrite bind_run, Hf. reflexivity.
  - intros fm e Hfm He env events ops. unfold _main. by rewrite Hfm, He.
Qed.

(** X24: started as Joy-Con Left with an NFC dump to load, [_main] never
    gets to the shell: once the flash image is read and
    [create_hid_server] has returned, the [nfc] command it runs first
    refuses the variant, and [_main] ends with its [ValueError]. *)
Theorem _main_joycon_l_refuses_nfc_option (fs : FileSystem) (env : Server.Env) (args : Args)
    (events : list Server.LoopEvent) (ops : list Operation) (path : string) :
  from_arg (args_controller args) = Returned JOYCON_L →
  args_nfc args = Some path →
  (∀ w, _main fs env args events ops ≠ Server.Done w)
  ∧ (∀ fm l transport protocol,
       _main_spi_flash fs (args_spi_flash args) tt = (tt, Returned fm) →
       Server.create_hid_server (controller_protocol_factory JOYCON_L fm) env 17 19
         (args_reconnect_bt_addr args) (args_log args) events Server.empty_world
       = (l, Server.Done (transport, protocol)) →
       _main fs env args events ops
       = Server.Failed (ValueError "NFC content cannot be set for JOYCON_L")).
Proof.
  intros Hc Hn. split.
  - intros w Hmain.
    apply _main_done_steps in Hmain as (fm & c & w1 & _ & Hc' & _ & Hnfc & _).
    rewrite Hc in Hc'. injection Hc' as <-. rewrite Hn in Hnfc.
    unfold nfc in Hnfc. rewrite bind_run in Hnfc. simpl in Hnfc. done.
  - intros fm l transport protocol Hfm Hsrv.
    pose proof Hsrv as Hrun.
    apply create_hid_server_run in Hrun as (w' & ci & cc & _ & _ & Hdone); [|done].
    assert (Hp : protocol = controller_protocol_factory JOYCON_L fm tt).
    { destruct (Server.returned l); [by injection Hdone|done]. }
    unfold _main. rewrite Hfm, Hc, Hsrv, Hn, Hp.
    unfold nfc. rewrite bind_run. reflexivity.
Qed.

(** X25: [_main] does not get to the shell before the console has sent an
    output report. *)
Theorem _main_waits_for_first_output_report (fs : FileSystem) (env : Server.Env) (args : Args)
    (events : list Server.LoopEvent) (ops : list Operation) (w : World) :
  output_reports events = 0 →
  _main fs env args events ops ≠ Server.Done w.
Proof.
  intros H0 Hmain.
  apply _main_done_steps in Hmain as (fm & c & w1 & _ & _ & Hev & _). lia.
Qed.

(** X26: when [_main] starts the shell with an NFC option, the payload of
    the controller state is the whole content of that file, or none for the
    option [remove]; with no operation run since, that is the payload of
    the world [_main] ends in. *)
Theorem _main_loads_nfc_option (fs : FileSystem) (env : Server.Env) (args : Args)
    (events : list Server.LoopEvent) (path : string) (w : World) :
  args_nfc args = Some path →
  _main fs env args events [] = Server.Done w →
  (path = "remove" → nfc_content (controller_state w) = None)
  ∧ (path ≠ "remove" →
     ∃ content, read_file fs path = Some content
                ∧ nfc_content (controller_state w) = Some content).
Proof.
  intros Hn Hmain.
  apply _main_done_steps in Hmain as (fm & c & w1 & _ & _ & _ & Hnfc & ->).
  rewrite Hn in Hnfc. simpl. unfold nfc in Hnfc. rewrite bind_run in Hnfc. simpl in Hnfc.
  case_decide; [done|]. case_decide as Hp.
  - split; [|done]. intros _. by injection Hnfc as <-.
  - split; [done|]. intros _. unfold set_nfc, open_rb in Hnfc.
    destruct (read_file fs path) as [content|]; [|done].
    exists content. split; [done|]. by injection Hnfc as <-.
Qed.

End MainRuns.

(** ** The further properties on the sample data *)

Lemma sample_keyboard_has_test_keys k :
  k ∈ testKeys → is_Some (@key_to_scan_codes sample_keyboard k).
Proof. intros Hk. unfold testKeys in Hk. in_literal Hk; subst k; by eexists. Qed.

Lemma sample_keyboard_codes_differ k1 k2 :
  k1 ∈ testKeys → k2 ∈ testKeys →
  @first_code sample_keyboard k1 = @first_code sample_keyboard k2 → k1 = k2.
Proof.
  assert (H : Forall (λ k1, Forall (λ k2, @first_code sample_keyboard k1
                                          = @first_code sample_keyboard k2 → k1 = k2)
                               testKeys) testKeys)
    by (apply (bool_decide_unpack _); vm_compute; exact I).
  intros H1 H2. rewrite Forall_forall in H. specialize (H k1 H1).
  rewrite Forall_forall in H. by apply H.
Qed.

Lemma sample_pro_has (B : list string) :
  bool_decide (B ⊆ @get_available_buttons sample_externals PRO_CONTROLLER) = true →
  ∀ b, b ∈ B → b ∈ @get_available_buttons sample_externals PRO_CONTROLLER.
Proof. intros H b Hb. apply bool_decide_eq_true in H. by apply H. Qed.

(** The key q has the code 113 and stands for the button left. *)
Lemma keyToConBtn_last_test_key_wins_witness :
  @keyToConBtn sample_keyboard 113
  = Returned (k ← last (filter (λ k, @first_code sample_keyboard k = Some 113) testKeys);
              keyBinding !! k).
Proof.
  apply (@keyToConBtn_last_test_key_wins sample_keyboard 113).
  exact sample_keyboard_has_test_keys.
Defined.

Lemma keyToConBtn_of_first_code_witness :
  ∃ name, keyBinding !! "q" = Some name
          ∧ @keyToConBtn sample_keyboard 113 = Returned (Some name).
Proof.
  apply (@keyToConBtn_of_first_code sample_keyboard "q" 113).
  - exact sample_keyboard_has_test_keys.
  - exact sample_keyboard_codes_differ.
  - apply (bool_decide_unpack _). vm_compute. exact I.
  - reflexivity.
Defined.

(** A keyboard without arrow keys has no key up. *)
Lemma keyToConBtn_unmapped_test_key_witness :
  ∃ msg, @keyToConBtn letters_keyboard 113 = Raised (ValueError msg).
Proof.
  apply (@keyToConBtn_unmapped_test_key letters_keyboard "up" 113).
  - apply (bool_decide_unpack _). vm_compute. exact I.
  - reflexivity.
Defined.

Lemma keyToConBtn_gives_directStateSet_names_witness :
  "left" ∈ btnsList ++ lStickList ++ rStickList.
Proof.
  apply (@keyToConBtn_gives_directStateSet_names sample_keyboard 113 "left").
  vm_compute. reflexivity.
Defined.

Lemma playback_does_what_the_key_did_witness :
  ∃ press release,
    @bindKeyboard sample_externals !! "w" = Some (press, release)
    ∧ @on_press_key sample_externals "w" = press
    ∧ ∀ w, @directStateSet sample_externals "lStickUp" w = (press ;; send) w.
Proof.
  apply (@playback_does_what_the_key_did sample_externals "w" "lStickUp").
  vm_compute. reflexivity.
Defined.

(** The scripts on a Joy-Con Right, and on the Pro Controller. *)
Lemma scripts_refuse_other_variants_witness :
  @friend_remover sample_externals (sample_world JOYCON_R)
  = (sample_world JOYCON_R,
     Raised (ValueError "This script only works with the Pro Controller!")).
Proof.
  refine (proj2 (proj2 (@scripts_refuse_other_variants sample_externals
                          (sample_world JOYCON_R) _))).
  vm_compute. intros H. discriminate H.
Defined.

Lemma friend_remover_runs_witness :
  ∃ w', @friend_remover sample_externals (sample_world PRO_CONTROLLER) = (w', Returned tt)
        ∧ script_frame (sample_world PRO_CONTROLLER) w'
        ∧ length (written w') = length (written (sample_world PRO_CONTROLLER)) + 2 * (50 * 6)
        ∧ stdout w' = stdout (sample_world PRO_CONTROLLER)
                      ++ ((λ i, pretty i +:+ "/50") <$> seq 0 50).
Proof.
  apply (@friend_remover_runs sample_externals (sample_world PRO_CONTROLLER)).
  - reflexivity.
  - reflexivity.
  - apply sample_pro_has. vm_compute. reflexivity.
Defined.

Lemma date_skipper_runs_witness :
  ∃ w', @date_skipper sample_externals (sample_world PRO_CONTROLLER) = (w', Returned tt)
        ∧ script_frame (sample_world PRO_CONTROLLER) w'
        ∧ length (written w')
          = length (written (sample_world PRO_CONTROLLER)) + 2 * (17 + 815 * 11 + 27 * 6)
        ∧ stdout w' = stdout (sample_world PRO_CONTROLLER)
                      ++ ((λ i, pretty i +:+ "/815") <$> seq 0 815).
Proof.
  apply (@date_skipper_runs sample_externals (sample_world PRO_CONTROLLER)).
  - reflexivity.
  - reflexivity.
  - apply sample_pro_has. vm_compute. reflexivity.
Defined.

Lemma run_auto_host_runs_witness :
  ∃ w', @run_auto_host sample_externals 2 (sample_world PRO_CONTROLLER) = (w', Returned tt)
        ∧ script_frame (sample_world PRO_CONTROLLER) w'
        ∧ length (written w') = length (written (sample_world PRO_CONTROLLER)) + 2 * (2 * 251)
        ∧ stdout w' = stdout (sample_world PRO_CONTROLLER)
                      ++ concat (replicate 2 run_auto_host_lines).
Proof.
  apply (@run_auto_host_runs sample_externals 2 (sample_world PRO_CONTROLLER)).
  - reflexivity.
  - reflexivity.
  - apply sample_pro_has. vm_compute. reflexivity.
Defined.

(** The [mash] command with one argument, with the interval 0.5, and with
    an interval that is no number. *)
Lemma call_mash_button_needs_two_arguments_witness :
  ∃ msg, @call_mash_button sample_externals ["a"] 0 (Returned tt) (sample_world PRO_CONTROLLER)
         = (sample_world PRO_CONTROLLER, Raised (ValueError msg)).
Proof.
  apply (@call_mash_button_needs_two_arguments sample_externals ["a"] 0 (Returned tt)
           (sample_world PRO_CONTROLLER)).
  simpl. lia.
Defined.

Lemma mash_button_pushes_witness :
  ∃ w', @mash_button sample_externals "a" "0.5" 2 (Returned tt) (sample_world PRO_CONTROLLER)
        = (w', Returned tt)
        ∧ script_frame (sample_world PRO_CONTROLLER) w'
        ∧ length (written w') = length (written (sample_world PRO_CONTROLLER)) + 2 * 3
        ∧ button_state (controller_state w') !! "a" = Some false
        ∧ stdout w' = stdout (sample_world PRO_CONTROLLER)
                      ++ [mash_prompt "a" "0.5"].
Proof.
  apply (@mash_button_pushes sample_externals "a" "0.5" 500%N 2 (Returned tt)
           (sample_world PRO_CONTROLLER)).
  - reflexivity.
  - apply (bool_decide_unpack _). vm_compute. exact I.
  - reflexivity.
Defined.

Lemma mash_button_bad_interval_witness :
  @mash_button sample_externals "a" "soon" 0 (Returned tt) (sample_world PRO_CONTROLLER)
  = ((@button_push sample_externals "a" 100%N
        (print (mash_prompt "a" "soon") (sample_world PRO_CONTROLLER)).1).1,
     Raised (ValueError "could not convert string to float: 'soon'")).
Proof.
  refine (proj1 (@mash_button_bad_interval sample_externals "a" "soon" 0 (Returned tt)
                   (sample_world PRO_CONTROLLER) _ _) _).
  - reflexivity.
  - apply (bool_decide_unpack _). vm_compute. exact I.
  - reflexivity.
Defined.

(** A dump file that is not there, and two [nfc] commands in a row. *)
Lemma nfc_missing_file_keeps_payload_witness :
  set_nfc sample_fs "nowhere.bin" (sample_world PRO_CONTROLLER)
  = (sample_world PRO_CONTROLLER, Raised (FileNotFoundError "nowhere.bin")).
Proof.
  refine (proj1 (nfc_missing_file_keeps_payload sample_fs "nowhere.bin" []
                   (sample_world PRO_CONTROLLER) _)).
  reflexivity.
Defined.

Lemma nfc_last_command_decides_witness :
  controller_state (@run_operations sample_externals sample_fs
                      [OpNfc ["amiibo.bin"]; OpNfc ["remove"]] (sample_world PRO_CONTROLLER))
  = controller_state (@run_operations sample_externals sample_fs [OpNfc ["remove"]]
                        (sample_world PRO_CONTROLLER)).
Proof.
  apply (@nfc_last_command_decides sample_externals sample_fs ["amiibo.bin"] ["remove"]
           (sample_world PRO_CONTROLLER)).
  vm_compute. reflexivity.
Defined.

(** The sample pairing, a pairing with two peers, and one with the ports
    taken. *)
Lemma pairing_listeners_witness :
  Server.sockets (Server.establish sample_env 17 19 None Server.empty_world).1 !! 0
  = Some (Server.mkSocket false true (Some ("DC:A6:32:01:02:03", 17)) true None).
Proof.
  refine (proj1 (pairing_listeners sample_env 17 19 Server.empty_world _ 3 2 _)).
  vm_compute. reflexivity.
Defined.

Lemma pairing_advertising_witness :
  Server.hid_calls (Server.establish two_peers_env 17 19 None Server.empty_world).1
  = [Server.RestartBluetooth; Server.Powered true; Server.Pairable true;
     Server.RegisterSdpRecord; Server.Discoverable true].
Proof.
  refine (proj2 (pairing_advertising two_peers_env 17 19 Server.empty_world) _ _).
  vm_compute. reflexivity.
Defined.

Lemma pairing_ports_still_taken_witness :
  ∃ l, Server.create_hid_server (λ _, tt) ports_taken_env 17 19 None None sample_events
         Server.empty_world
       = (l, Server.Failed OSError)
       ∧ Server.hid_calls (Server.world l) = [Server.RestartBluetooth]
       ∧ Server.transports (Server.world l) = []
       ∧ Server.wire (Server.world l) = [].
Proof.
  apply (pairing_ports_still_taken (λ _, tt) ports_taken_env 17 19 None sample_events
           Server.empty_world); reflexivity.
Defined.

(** A console that takes the connection to its control port and refuses
    the one to its interrupt port. *)
Lemma reconnection_connects_both_ports_witness :
  ∃ w', Server.establish itr_refused_env 17 19 (Some "98:B6:E9:0A:0B:0C") Server.empty_world
        = (w', Raised OSError)
        ∧ Server.sockets w' !! 0
          = Some (Server.mkSocket true false None false (Some ("98:B6:E9:0A:0B:0C", 17)))
        ∧ Server.sockets w' !! 1 = Some (Server.mkSocket true false None false None).
Proof.
  refine (proj2 (proj2 (proj2 (reconnection_connects_both_ports itr_refused_env 17 19
                                 "98:B6:E9:0A:0B:0C" Server.empty_world))) _ _).
  - reflexivity.
  - reflexivity.
Defined.

(** [_main] with a directory for a flash dump, as a Joy-Con Left with an
    NFC dump, without an answer of the console, and on the sample data. *)
Lemma _main_checks_arguments_first_witness :
  @_main sample_externals sample_fs sample_env
    (mkArgs "PRO_CONTROLLER" None (Some "/") None None) sample_events sample_ops
  = Server.Failed (IsADirectoryError "/").
Proof.
  refine (proj1 (@_main_checks_arguments_first sample_externals sample_fs
                   (mkArgs "PRO_CONTROLLER" None (Some "/") None None))
            "/" _ _ _ sample_env sample_events sample_ops).
  - reflexivity.
  - intros H. discriminate H.
  - reflexivity.
Defined.

Lemma _main_joycon_l_refuses_nfc_option_witness :
  @_main sample_externals sample_fs sample_env
    (mkArgs "JOYCON_L" None None None (Some "amiibo.bin")) sample_events sample_ops
  = Server.Failed (ValueError "NFC content cannot be set for JOYCON_L").
Proof.
  refine (proj2 (@_main_joycon_l_refuses_nfc_option sample_externals sample_fs sample_env
                   (mkArgs "JOYCON_L" None None None (Some "amiibo.bin")) sample_events
                   sample_ops "amiibo.bin" _ _)
            (@FlashMemory_new sample_externals None) _ (Server.mkTransport 3 2 50 None)
            (mkProtocol JOYCON_L (@FlashMemory_new sample_externals None)) _ _).
  - reflexivity.
  - reflexivity.
  - reflexivity.
  - vm_compute. reflexivity.
Defined.

Lemma _main_waits_for_first_output_report_witness :
  @_main sample_externals sample_fs sample_env sample_args [Server.SenderRuns] sample_ops
  ≠ Server.Done (sample_world PRO_CONTROLLER).
Proof.
  apply (@_main_waits_for_first_output_report sample_externals sample_fs sample_env
           sample_args [Server.SenderRuns] sample_ops (sample_world PRO_CONTROLLER)).
  reflexivity.
Defined.

Lemma _main_loads_nfc_option_witness :
  ∃ content, read_file sample_fs "amiibo.bin" = Some content
             ∧ nfc_content (controller_state sample_started_world) = Some content.
Proof.
  refine (proj2 (@_main_loads_nfc_option sample_externals sample_fs sample_env sample_args
                   sample_events "amiibo.bin" sample_started_world _ _) _).
  - reflexivity.
  - vm_compute. reflexivity.
  - intros H. discriminate H.
Defined.
